(** * sfdx-scanner: target resolution, engine dispatch and warning messages

    A shallow embedding of
      - [src/lib/DefaultRuleManager.ts] (class [DefaultRuleManager]:
        [init], [runRulesMatchingCriteria], [unpackTargets]);
      - [pmd-cataloger/.../messaging/SfdxMessager.java]
        ([SfdxMessager.uxWarn], [formatMessage], [SfdxMessage.toJson]).

    Asynchronous code is modelled in direct style: every [await] is a
    sequencing point, a rejected promise is an [Err].  The file system, the
    glob libraries and the engines are collaborators of the class; they are
    records of total functions that the embedded code calls where the source
    calls them.  A call on them that throws in the library is therefore not
    represented: [picomatch] on a glob that does not compile,
    [globby.hasMagic] on the empty string, a [getTargetPatterns] that
    rejects.  The conditions [globCompiles] and [target <> ""] name the
    inputs on which the libraries do not throw; a property that says that
    the code returns carries them as hypotheses. *)

From Stdlib Require Import String Ascii List Bool Arith PeanoNat ZArith Lia.
From Stdlib Require Import DecimalString.
Import ListNotations.
Local Open Scope string_scope.
Local Open Scope list_scope.

(** ** Fallible computations *)

Inductive Result (E A : Type) : Type :=
| Ok (a : A)
| Err (e : E).
Arguments Ok {E A} a.
Arguments Err {E A} e.

Definition bind {E A B} (c : Result E A) (k : A -> Result E B) : Result E B :=
  match c with
  | Ok a => k a
  | Err e => Err e
  end.

Notation "'let?' x ':=' c 'in' k" := (bind c (fun x => k))
  (at level 10, x name, c at level 100, k at level 200).

Definition isOk {E A} (c : Result E A) : bool :=
  match c with Ok _ => true | Err _ => false end.

(** ** JavaScript values that travel as exceptions *)

Module Js.

(** What a collaborator may throw or reject with: an [Error] instance with
    its [message] property, a bare string, [undefined] or [null]. *)
Inductive Value : Type :=
| ErrorObject (message : string)
| Str (s : string)
| Undefined
| Null.

(** [undefined] and [null]: reading a property of them throws a
    [TypeError]. *)
Definition isNullish (v : Value) : bool :=
  match v with
  | Undefined | Null => true
  | ErrorObject _ | Str _ => false
  end.

(** [v.message] on a value that is not nullish: [undefined] on a string
    primitive. *)
Definition message (v : Value) : option string :=
  match v with
  | ErrorObject m => Some m
  | Str _ | Undefined | Null => None
  end.

(** [e.message || e] on a value that is not nullish: the message when it is
    a non-empty string, the value itself otherwise ([undefined] and the
    empty string are falsy). *)
Definition messageOrSelf (e : Value) : Value :=
  match message e with
  | Some m => if (m =? "") then e else Str m
  | None => e
  end.

End Js.

(** What a method of [DefaultRuleManager] fails with. *)
Inductive Failure : Type :=
| AssertionError                 (* thrown by [assert(value)] on a falsy value *)
| SfdxError (arg : Js.Value)     (* [new SfdxError(arg)] *)
| Rejection (reason : Js.Value)  (* a collaborator's rejection, passed on unchanged *)
| TypeError.                     (* thrown by reading a property of [undefined] or [null] *)

(** ** Data model ([../types]) *)

Record Rule : Type := { rule_engine : string; rule_name : string }.
Record RuleGroup : Type := { group_engine : string; group_name : string }.

(** [isDirectory] is an optional property: [None] is an absent property. *)
Record RuleTarget : Type := {
  target : string;
  isDirectory : option bool;
  paths : list string
}.

(** A RuleTarget that is not marked as a directory carries a path. *)
Definition nonDirectoryHasPaths (rt : RuleTarget) : Prop :=
  isDirectory rt = None -> paths rt <> [].

(** ** Collaborators *)

(** The file system and the libraries [globby], [picomatch] and [path].
    The functions stand for calls that return: [hasMagic] and [globby] for
    a target other than the empty string, on which the library throws,
    [matchGlob] for a glob that compiles. *)
Record World : Type := {
  (* [FileHandler.exists(target)] *)
  exists_ : string -> bool;
  (* [FileHandler.stats(target)] followed by [stats.isDirectory()] *)
  stats_isDirectory : string -> bool;
  (* [globby.hasMagic(target)] *)
  hasMagic : string -> bool;
  (* [globby(target)]: the paths, relative to the working directory, that
     the pattern [target] expands to *)
  globby : string -> list string;
  (* [globby(patterns, {cwd})] *)
  globby_cwd : list string -> string -> list string;
  (* [path.resolve(t)] and [path.join(a, b)] *)
  resolve : string -> string;
  join : string -> string -> string;
  (* [picomatch(glob)(str)] for one glob string, a leading '!' included *)
  matchGlob : string -> string -> bool
}.

(** [picomatch(patterns)] for an array of globs.  The library compiles each
    glob and returns the matcher
    [str => { for (const isMatch of fns) { const state = isMatch(str);
              if (state) return state; } return false; }].
    The compilation throws on a glob that is the empty string or longer
    than the library's maximal length; the matcher is embedded for arrays
    of globs that compile ([globCompiles] below). *)
Definition picomatch (w : World) (patterns : list string) (str : string) : bool :=
  existsb (fun glob => matchGlob w glob str) patterns.

(** The globs that [picomatch] compiles without throwing: non-empty strings
    of at most 64 * 1024 chars. *)
Definition globCompiles (glob : string) : Prop :=
  glob <> "" /\ (Z.of_nat (String.length glob) <= 65536)%Z.

(** [p.startsWith("!")] *)
Definition startsWith (prefix p : string) : bool := String.prefix prefix p.

(** [ToBoolean] of an array: every object is truthy, the empty array too. *)
Definition truthy {A} (a : list A) : bool := true.

(** A promise that has settled, as the code that awaits it sees it: how it
    settled, and the moment at which the reaction attached to it runs.
    [Promise.all] attaches its reactions when it is called, after the
    dispatch loop; the reactions on promises that had settled by then run
    in the order of the array, the others when their promise settles. *)
Record Promise (A : Type) : Type := {
  settledAt : nat;
  outcome : Result Js.Value A
}.
Arguments settledAt {A} p.
Arguments outcome {A} p.

Section Manager.

(** Types of [../types] and [./RuleManager] that the class only passes on. *)
Context {RuleFilter RuleResult OUTPUT_FORMAT EngineOptions Report : Type}.

(** [RuleEngine] ([./services/RuleEngine]).  [getTargetPatterns] stands for
    a call that resolves; it answers [None] where the implementation
    resolves to [undefined]. *)
Record RuleEngine : Type := {
  getName : string;
  getTargetPatterns : string -> option (list string);
  engine_init : Result Js.Value unit;
  run : list RuleGroup -> list Rule -> list RuleTarget -> EngineOptions ->
        Result Js.Value (list RuleResult)
}.

(** [RuleCatalog] ([./services/RuleCatalog]). *)
Record RuleCatalog : Type := {
  catalog_init : Result Js.Value unit;
  getRuleGroupsMatchingFilters : list RuleFilter -> list RuleGroup;
  getRulesMatchingFilters : list RuleFilter -> list Rule
}.

(** ** [unpackTargets] *)

(** One iteration of the [for (const target of targets)] loop: the
    [ruleTargets] array after the iteration, or the exception. *)
Definition unpackTarget (w : World) (engine : RuleEngine)
    (ruleTargets : list RuleTarget) (target : string)
  : Result Failure (list RuleTarget) :=
  match getTargetPatterns engine target with
  | None => Err AssertionError                     (* assert(targetPatterns) *)
  | Some targetPatterns =>
    let isInclusiveMatch :=
      picomatch w (filter (fun p => negb (startsWith "!" p)) targetPatterns) in
    let isExclusiveMatch :=
      picomatch w (filter (fun p => startsWith "!" p) targetPatterns) in
    let fileExists := exists_ w target in
    if hasMagic w target then
      let matchingTargets := globby w target in
      let absoluteMatchingTargets := map (resolve w) matchingTargets in
      let ruleTarget := {|
        target := target;
        isDirectory := None;
        paths := filter (fun t => isInclusiveMatch t && isExclusiveMatch t)
                        absoluteMatchingTargets |} in
      if (0 <? length (paths ruleTarget))%nat
      then Ok (ruleTargets ++ [ruleTarget])
      else Ok ruleTargets
    else if fileExists then
      if stats_isDirectory w target then
        if truthy targetPatterns then
          let relativePaths := globby_cwd w targetPatterns target in
          let joinedPaths := map (fun t => join w target t) relativePaths in
          let absolutePaths := map (resolve w) joinedPaths in
          Ok (ruleTargets ++
              [{| target := target; isDirectory := Some true;
                  paths := absolutePaths |}])
        else
          Ok (ruleTargets ++
              [{| target := target; isDirectory := Some true;
                  paths := ["."] |}])
      else
        let absolutePath := resolve w target in
        if isInclusiveMatch absolutePath && isExclusiveMatch absolutePath
        then Ok (ruleTargets ++
                 [{| target := target; isDirectory := None;
                     paths := [absolutePath] |}])
        else Ok ruleTargets
    else Ok ruleTargets
  end.

Fixpoint unpackTargets_from (w : World) (engine : RuleEngine)
    (ruleTargets : list RuleTarget) (targets : list string)
  : Result Failure (list RuleTarget) :=
  match targets with
  | [] => Ok ruleTargets
  | target :: rest =>
      let? ruleTargets' := unpackTarget w engine ruleTargets target in
      unpackTargets_from w engine ruleTargets' rest
  end.

Definition unpackTargets (w : World) (engine : RuleEngine)
    (targets : list string) : Result Failure (list RuleTarget) :=
  unpackTargets_from w engine [] targets.

(** ** [runRulesMatchingCriteria]

    The method is embedded for a manager on which [init] has completed, so
    that [this.logger] and [this.fileHandler] are set; the [trace] calls
    leave no mark on the result and are not represented. *)

(** [RuleResultRecombinator.recombineAndReformatResults]
    ([./RuleResultRecombinator]). *)
Variable recombineAndReformatResults :
  list RuleResult -> OUTPUT_FORMAT -> Result Js.Value Report.

(** [engineRules.length > 0 && engineTargets.length > 0] *)
Definition eligible (engineRules : list Rule) (engineTargets : list RuleTarget)
  : bool :=
  (0 <? length engineRules)%nat && (0 <? length engineTargets)%nat.

(** One iteration of [for (const e of this.engines)]: the array [ps] after
    the iteration.  [sched i] is the moment at which the reaction of
    [Promise.all] on the promise pushed at index [i] runs; the engines run
    concurrently, so it is arbitrary, but for the runs that settle while the
    loop still resolves the targets of later engines, whose reactions run in
    the order of their indices. *)
Definition dispatchEngine (w : World) (sched : nat -> nat)
    (ruleGroups : list RuleGroup) (rules : list Rule)
    (targets : list string) (engineOptions : EngineOptions)
    (ps : list (Promise (list RuleResult))) (e : RuleEngine)
  : Result Failure (list (Promise (list RuleResult))) :=
  let engineGroups := filter (fun g => group_engine g =? getName e) ruleGroups in
  let engineRules := filter (fun r => rule_engine r =? getName e) rules in
  let? engineTargets := unpackTargets w e targets in
  if eligible engineRules engineTargets
  then Ok (ps ++ [{| settledAt := sched (length ps);
                     outcome := run e engineGroups engineRules engineTargets
                                    engineOptions |}])
  else Ok ps.

Fixpoint dispatch_from (w : World) (sched : nat -> nat)
    (ruleGroups : list RuleGroup) (rules : list Rule)
    (targets : list string) (engineOptions : EngineOptions)
    (ps : list (Promise (list RuleResult))) (es : list RuleEngine)
  : Result Failure (list (Promise (list RuleResult))) :=
  match es with
  | [] => Ok ps
  | e :: rest =>
      let? ps' := dispatchEngine w sched ruleGroups rules targets
                                 engineOptions ps e in
      dispatch_from w sched ruleGroups rules targets engineOptions ps' rest
  end.

(** [Promise.all(ps)]: the values in the order of [ps] when every promise
    is fulfilled, otherwise the reason of the rejected promise whose
    reaction runs first. *)
Fixpoint earliestRejection {A} (ps : list (Promise A)) : option (nat * Js.Value) :=
  match ps with
  | [] => None
  | p :: rest =>
      match outcome p, earliestRejection rest with
      | Err e, Some (t', e') =>
          if (settledAt p <=? t')%nat then Some (settledAt p, e) else Some (t', e')
      | Err e, None => Some (settledAt p, e)
      | Ok _, r => r
      end
  end.

Fixpoint fulfilledValues {A} (ps : list (Promise A)) : list A :=
  match ps with
  | [] => []
  | p :: rest =>
      match outcome p with
      | Ok v => v :: fulfilledValues rest
      | Err _ => fulfilledValues rest
      end
  end.

Definition Promise_all {A} (ps : list (Promise A)) : Result Js.Value (list A) :=
  match earliestRejection ps with
  | Some (_, e) => Err e
  | None => Ok (fulfilledValues ps)
  end.

(** [psResults.forEach(r => results = results.concat(r))] from
    [results = []]. *)
Definition concatResults (psResults : list (list RuleResult)) : list RuleResult :=
  fold_left (fun results r => results ++ r) psResults [].

(** The body of the [try] block. *)
Definition awaitAndRecombine (ps : list (Promise (list RuleResult)))
    (format : OUTPUT_FORMAT) : Result Js.Value Report :=
  let? psResults := Promise_all ps in
  recombineAndReformatResults (concatResults psResults) format.

(** [try { ... } catch (e) { throw new SfdxError(e.message || e); }]: on a
    caught [undefined] or [null] the catch clause itself throws, reading
    [e.message]. *)
Definition rethrowAsSfdxError {A} (c : Result Js.Value A) : Result Failure A :=
  match c with
  | Ok a => Ok a
  | Err e =>
      if Js.isNullish e then Err TypeError
      else Err (SfdxError (Js.messageOrSelf e))
  end.

Definition runRulesMatchingCriteria (w : World) (sched : nat -> nat)
    (engines : list RuleEngine) (catalog : RuleCatalog)
    (filters : list RuleFilter) (targets : list string)
    (format : OUTPUT_FORMAT) (engineOptions : EngineOptions)
  : Result Failure Report :=
  let ruleGroups := getRuleGroupsMatchingFilters catalog filters in
  let rules := getRulesMatchingFilters catalog filters in
  let? ps := dispatch_from w sched ruleGroups rules targets engineOptions
                           [] engines in
  rethrowAsSfdxError (awaitAndRecombine ps format).

(** ** [init]

    The fields of the class that [init] writes, and the calls it makes on
    its collaborators, in the order in which they are made. *)

Inductive Event : Type :=
| LoggerChild (name : string)   (* [Logger.child(name)] *)
| EngineInit (engine : string)  (* [engine.init()] on the engine of that name *)
| CatalogInit.                  (* [this.catalog.init()] *)

Record DefaultRuleManager : Type := {
  engines : list RuleEngine;
  catalog : RuleCatalog;
  logger : option string;       (* [undefined] until [init] sets it *)
  fileHandler : bool;           (* whether [this.fileHandler] is set *)
  initialized : bool            (* [undefined] is falsy *)
}.

(** The constructor stores the injected engines and catalog only. *)
Definition construct (engines : list RuleEngine) (catalog : RuleCatalog)
  : DefaultRuleManager :=
  {| engines := engines; catalog := catalog;
     logger := None; fileHandler := false; initialized := false |}.

(** The state that [init] runs in: the object and the calls made so far. *)
Definition State : Type := DefaultRuleManager * list Event.

(** [for (const engine of this.engines) { await engine.init(); }]: the
    calls made, and the rejection that stopped the loop if one did. *)
Fixpoint initEngines (es : list RuleEngine) (log : list Event)
  : Result Failure unit * list Event :=
  match es with
  | [] => (Ok tt, log)
  | engine :: rest =>
      let log' := log ++ [EngineInit (getName engine)] in
      match engine_init engine with
      | Ok _ => initEngines rest log'
      | Err v => (Err (Rejection v), log')
      end
  end.

Definition init (st : State) : Result Failure unit * State :=
  let '(this, log) := st in
  if initialized this then (Ok tt, (this, log))
  else
    let log1 := log ++ [LoggerChild "DefaultManager"] in
    let this1 := {| engines := engines this; catalog := catalog this;
                    logger := Some "DefaultManager";
                    fileHandler := fileHandler this;
                    initialized := initialized this |} in
    let this2 := {| engines := engines this1; catalog := catalog this1;
                    logger := logger this1;
                    fileHandler := true;
                    initialized := initialized this1 |} in
    match initEngines (engines this2) log1 with
    | (Err x, log2) => (Err x, (this2, log2))
    | (Ok _, log2) =>
        let log3 := log2 ++ [CatalogInit] in
        match catalog_init (catalog this2) with
        | Err v => (Err (Rejection v), (this2, log3))
        | Ok _ =>
            (Ok tt, ({| engines := engines this2; catalog := catalog this2;
                        logger := logger this2;
                        fileHandler := fileHandler this2;
                        initialized := true |}, log3))
        end
    end.

(** [n] calls of [init], one after the other, each awaited; a rejected
    call does not stop the caller from calling again. *)
Fixpoint init_times (n : nat) (st : State) : State :=
  match n with
  | O => st
  | S k => init_times k (snd (init st))
  end.

(** ** [getRulesMatchingCriteria] *)

Definition getRulesMatchingCriteria (this : DefaultRuleManager)
    (filters : list RuleFilter) : list Rule :=
  getRulesMatchingFilters (catalog this) filters.

(** ** The shares of the engines, as the specification words them

    The resolved targets of an engine, whether it is eligible, what its run
    answers, and the result lists of the eligible engines one after the
    other in registration order. *)

Definition engineTargetsOf (w : World) (targets : list string) (e : RuleEngine)
  : list RuleTarget :=
  match unpackTargets w e targets with
  | Ok ts => ts
  | Err _ => []
  end.

Definition engineRulesOf (catalog : RuleCatalog) (filters : list RuleFilter)
    (e : RuleEngine) : list Rule :=
  filter (fun r => rule_engine r =? getName e)
         (getRulesMatchingFilters catalog filters).

Definition engineGroupsOf (catalog : RuleCatalog) (filters : list RuleFilter)
    (e : RuleEngine) : list RuleGroup :=
  filter (fun g => group_engine g =? getName e)
         (getRuleGroupsMatchingFilters catalog filters).

Definition isDispatched (w : World) (catalog : RuleCatalog)
    (filters : list RuleFilter) (targets : list string) (e : RuleEngine)
  : bool :=
  eligible (engineRulesOf catalog filters e) (engineTargetsOf w targets e).

Definition runOf (w : World) (catalog : RuleCatalog)
    (filters : list RuleFilter) (targets : list string)
    (engineOptions : EngineOptions) (e : RuleEngine)
  : Result Js.Value (list RuleResult) :=
  run e (engineGroupsOf catalog filters e) (engineRulesOf catalog filters e)
        (engineTargetsOf w targets e) engineOptions.

Definition resultsOf {A} (r : Result Js.Value (list A)) : list A :=
  match r with
  | Ok v => v
  | Err _ => []
  end.

Definition resultsInRegistrationOrder (w : World) (catalog : RuleCatalog)
    (filters : list RuleFilter) (targets : list string)
    (engineOptions : EngineOptions) (engines : list RuleEngine)
  : list RuleResult :=
  concat (map (fun e => resultsOf (runOf w catalog filters targets engineOptions e))
              (filter (isDispatched w catalog filters targets) engines)).

End Manager.

(** ** [SfdxMessager] (Java)

    Java strings are embedded as strings of char codes below 256, [null]
    references as [None], a [long] as an integer. *)

Module SfdxMessager.

Local Open Scope Z_scope.
Local Open Scope string_scope.

Inductive MessageType : Type := WARNING.
Inductive MessageHandler : Type := UX.

Definition MessageType_name (t : MessageType) : string :=
  match t with WARNING => "WARNING" end.
Definition MessageHandler_name (h : MessageHandler) : string :=
  match h with UX => "UX" end.

Definition START : string := "SFDX-START".
Definition END_ : string := "SFDX-END".

(** [System.lineSeparator()], which [println] writes after its argument. *)
Definition lineSeparator : string := String "010" "".

(** *** Gson's compact, HTML-safe [JsonWriter] *)

Module Gson.

Definition hexDigit (n : nat) : ascii :=
  match n with
  | 0 => "0" | 1 => "1" | 2 => "2" | 3 => "3" | 4 => "4" | 5 => "5"
  | 6 => "6" | 7 => "7" | 8 => "8" | 9 => "9" | 10 => "a" | 11 => "b"
  | 12 => "c" | 13 => "d" | 14 => "e" | _ => "f"
  end%nat%char.

(** [String.format("\\u%04x", c)] for a char code below 256. *)
Definition unicodeEscape (c : nat) : string :=
  String "\" (String "u" (String "0" (String "0"
    (String (hexDigit (c / 16)) (String (hexDigit (c mod 16)) ""))))).

(** [HTML_SAFE_REPLACEMENT_CHARS[c]], or the char itself where the table
    holds [null] and above the table. *)
Definition replacement (c : ascii) : string :=
  let n := nat_of_ascii c in
  if (n =? 34)%nat then String "\" (String c "")        (* the double quote *)
  else if (n =? 92)%nat then String "\" (String "\" "")   (* the backslash *)
  else if (n =? 9)%nat then String "\" "t"
  else if (n =? 8)%nat then String "\" "b"
  else if (n =? 10)%nat then String "\" "n"
  else if (n =? 13)%nat then String "\" "r"
  else if (n =? 12)%nat then String "\" "f"
  else if (n <? 32)%nat then unicodeEscape n
  else if (n =? 60)%nat then unicodeEscape n              (* < *)
  else if (n =? 62)%nat then unicodeEscape n              (* > *)
  else if (n =? 38)%nat then unicodeEscape n              (* & *)
  else if (n =? 61)%nat then unicodeEscape n              (* = *)
  else if (n =? 39)%nat then unicodeEscape n              (* ' *)
  else String c "".

Fixpoint escape (s : string) : string :=
  match s with
  | EmptyString => EmptyString
  | String c rest => replacement c ++ escape rest
  end.

(** [JsonWriter.string(value)] *)
Definition string_ (s : string) : string :=
  String "034" (escape s ++ String "034" "").

(** [JsonWriter.value(String)], [nullValue()] for a [null]. *)
Definition stringOrNull (s : option string) : string :=
  match s with
  | Some v => string_ v
  | None => "null"
  end.

(** [JsonWriter.value(boolean)] and [JsonWriter.value(long)] *)
Definition boolean (b : bool) : string := if b then "true" else "false".
Definition long (z : Z) : string := NilZero.string_of_int (Z.to_int z).

(** A collection: [beginArray], the elements, [endArray]. *)
Definition array (elements : list string) : string :=
  "[" ++ String.concat "," elements ++ "]".

(** A field of a reflected object; a [null] value drops the field
    ([serializeNulls] is off). *)
Definition field (name : string) (value : option string) : list string :=
  match value with
  | Some v => [string_ name ++ ":" ++ v]
  | None => []
  end.

Definition object (fields : list string) : string :=
  "{" ++ String.concat "," fields ++ "}".

End Gson.

Section Messaging.

(** [sfdc.sfdx.scanner.EventKey], an enum, and the name Gson writes for each
    of its constants. *)
Variable EventKey : Type.
Variable EventKey_name : EventKey -> string.

Record SfdxMessage : Type := {
  key : option EventKey;
  args : option (list (option string));
  type : MessageType;
  handler : MessageHandler;
  verbose : bool;
  time : Z
}.

(** The constructor; [now] is what [Instant.now().toEpochMilli()] reads. *)
Definition new_SfdxMessage (now : Z) (key : option EventKey)
    (args : option (list (option string))) (type : MessageType)
    (handler : MessageHandler) (verbose : bool) : SfdxMessage :=
  {| key := key; args := args; type := type; handler := handler;
     verbose := verbose; time := now |}.

(** [new Gson().toJson(this)]: the fields in declaration order. *)
Definition toJson (this : SfdxMessage) : string :=
  Gson.object
    (Gson.field "key"
       (option_map (fun k => Gson.string_ (EventKey_name k)) (key this)) ++
     Gson.field "args"
       (option_map (fun l => Gson.array (map Gson.stringOrNull l)) (args this)) ++
     Gson.field "type" (Some (Gson.string_ (MessageType_name (type this)))) ++
     Gson.field "handler"
       (Some (Gson.string_ (MessageHandler_name (handler this)))) ++
     Gson.field "verbose" (Some (Gson.boolean (verbose this))) ++
     Gson.field "time" (Some (Gson.long (time this))))%list.

Definition formatMessage (now : Z) (key : option EventKey)
    (args : option (list (option string))) (type : MessageType)
    (handler : MessageHandler) (verbose : bool) : string :=
  START ++ toJson (new_SfdxMessage now key args type handler verbose) ++ END_.

(** [System.err.println(x)] on the text written to [System.err] so far. *)
Definition println (err : string) (x : string) : string :=
  err ++ x ++ lineSeparator.

(** [uxWarn(key, args, verbose)] *)
Definition uxWarn (now : Z) (err : string) (key : option EventKey)
    (args : option (list (option string))) (verbose : bool) : string :=
  println err (formatMessage now key args WARNING UX verbose).

(** [uxWarn(key, args)] *)
Definition uxWarn_default (now : Z) (err : string) (key : option EventKey)
    (args : option (list (option string))) : string :=
  uxWarn now err key args false.

End Messaging.

(** A line terminator: line feed or carriage return. *)
Definition isLineTerminator (c : ascii) : bool :=
  ((nat_of_ascii c =? 10) || (nat_of_ascii c =? 13))%nat.

Fixpoint singleLine (s : string) : bool :=
  match s with
  | EmptyString => true
  | String c rest => negb (isLineTerminator c) && singleLine rest
  end.

(** The number of line terminators of a text. *)
Fixpoint lineBreaks (s : string) : nat :=
  match s with
  | EmptyString => O
  | String c rest =>
      ((if isLineTerminator c then 1 else 0) + lineBreaks rest)%nat
  end.

(** *** [getInstance]

    The static field [INSTANCE], [null] or a reference, and the number of
    [SfdxMessager] objects created so far; the reference of a new object is
    that number. *)
Record Statics : Type := {
  INSTANCE : option nat;
  created : nat
}.

(** The state in which the class is loaded. *)
Definition loaded : Statics := {| INSTANCE := None; created := 0 |}.

Definition getInstance (s : Statics) : nat * Statics :=
  match INSTANCE s with
  | None =>
      (created s,
       {| INSTANCE := Some (created s); created := S (created s) |})
  | Some instance => (instance, s)
  end.

(** The references that [n] calls of [getInstance] in a row return, and
    the state after them. *)
Fixpoint getInstance_times (n : nat) (s : Statics) : list nat * Statics :=
  match n with
  | O => ([], s)
  | S k =>
      let '(r, s') := getInstance s in
      let '(rs, s'') := getInstance_times k s' in
      (r :: rs, s'')
  end.

(** The chars that the writer puts into a string as they are: from the
    space on, but for the quote, the backslash and the chars that matter in
    HTML. *)
Definition writtenPlain (c : ascii) : bool :=
  let n := nat_of_ascii c in
  ((32 <=? n) && negb (n =? 34) && negb (n =? 92) && negb (n =? 60) &&
   negb (n =? 62) && negb (n =? 38) && negb (n =? 61) && negb (n =? 39))%nat.

(** Chars that never occur in what the writer puts between the quotes:
    the chars of code below 32 and the chars that matter in HTML. *)
Definition neverWritten (c : ascii) : bool :=
  let n := nat_of_ascii c in
  ((n <? 32) || (n =? 60) || (n =? 62) || (n =? 38) ||
   (n =? 61) || (n =? 39))%nat.

Fixpoint allChars (f : ascii -> bool) (s : string) : bool :=
  match s with
  | EmptyString => true
  | String c rest => f c && allChars f rest
  end.

End SfdxMessager.

(** ** A small installation

    A working directory [/w] that holds the directory [src] with the one
    file [src/Foo.cls] and the directory [empty] with no file; two engines
    in the manner of the PMD and ESLint engines, and engines that break
    their contract or fail.  Rule results are strings, the report is the
    list of results. *)

Module Installation.

Definition endsWith (suffix s : string) : bool :=
  (substring (String.length s - String.length suffix)
             (String.length suffix) s =? suffix)%string.

Fixpoint contains (c : ascii) (s : string) : bool :=
  match s with
  | EmptyString => false
  | String d rest => Ascii.eqb c d || contains c rest
  end.

Definition posix : World := {|
  exists_ := fun t =>
    ((t =? "src") || (t =? "src/Foo.cls") || (t =? "empty"))%string;
  stats_isDirectory := fun t => ((t =? "src") || (t =? "empty"))%string;
  hasMagic := fun t => contains "*" t;
  globby := fun t =>
    if (t =? "src/*.cls")%string then ["src/Foo.cls"]
    else if (t =? "**/*.cls")%string then ["src/Foo.cls"]
    else [];
  globby_cwd := fun patterns cwd =>
    if ((cwd =? "src")%string &&
        existsb (fun p => (p =? "**/*.cls")%string) patterns)
    then ["Foo.cls"] else [];
  resolve := fun t => if startsWith "/" t then t else ("/w/" ++ t)%string;
  join := fun a b => (a ++ "/" ++ b)%string;
  matchGlob := fun glob s =>
    if (glob =? "**/*.cls")%string then endsWith ".cls" s
    else if (glob =? "**/*.js")%string then endsWith ".js" s
    else if (glob =? "!**/Ignored.cls")%string
         then negb (endsWith "/Ignored.cls" s)
    else false
|}.

Definition Options : Type := list (string * string).

Definition engineOf (name : string) (patterns : option (list string))
    (result : Result Js.Value (list string))
  : @RuleEngine string Options :=
  {| getName := name;
     getTargetPatterns := fun _ => patterns;
     engine_init := Ok tt;
     run := fun _ _ _ _ => result |}.

(** Patterns without an exclusion. *)
Definition pmd : RuleEngine :=
  engineOf "pmd" (Some ["**/*.cls"]) (Ok ["pmd: Foo.cls line 1"]).
Definition eslint : RuleEngine :=
  engineOf "eslint" (Some ["**/*.js"]) (Ok ["eslint: bar.js line 2"]).
(** Patterns with an exclusion. *)
Definition pmdExcluding : RuleEngine :=
  engineOf "pmd" (Some ["**/*.cls"; "!**/Ignored.cls"])
           (Ok ["pmd: Foo.cls line 1"; "pmd: Foo.cls line 7"]).
(** No pattern declared, and no answer at all. *)
Definition patternless : RuleEngine := engineOf "pmd" (Some []) (Ok []).
Definition answerless : RuleEngine := engineOf "eslint" None (Ok []).
(** Engines whose run rejects, with an error and with a bare string. *)
Definition crashing : RuleEngine :=
  engineOf "pmd" (Some ["**/*.cls"; "!**/Ignored.cls"])
           (Err (Js.ErrorObject "PMD exited with code 4")).
Definition crashingToo : RuleEngine :=
  engineOf "eslint" (Some ["**/*.cls"; "!**/Ignored.cls"])
           (Err (Js.Str "ESLint could not parse")).
(** An engine whose run rejects with [undefined]. *)
Definition vanishing : RuleEngine :=
  engineOf "eslint" (Some ["**/*.cls"; "!**/Ignored.cls"]) (Err Js.Undefined).
(** An engine whose [init] rejects. *)
Definition uninstalled : @RuleEngine string Options :=
  {| getName := "pmd";
     getTargetPatterns := fun _ => Some ["**/*.cls"];
     engine_init := Err (Js.ErrorObject "java not found");
     run := fun _ _ _ _ => Ok [] |}.

Definition rulesOfBoth : @RuleCatalog unit := {|
  catalog_init := Ok tt;
  getRuleGroupsMatchingFilters := fun _ =>
    [{| group_engine := "pmd"; group_name := "bestpractices" |}];
  getRulesMatchingFilters := fun _ =>
    [{| rule_engine := "pmd"; rule_name := "ApexUnitTestClassShouldHaveAsserts" |};
     {| rule_engine := "eslint"; rule_name := "no-unused-vars" |}]
|}.

Definition recombine (results : list string) (format : unit)
  : Result Js.Value (list string) := Ok results.

(** A catalog in which the filters select nothing, and one whose [init]
    rejects. *)
Definition noRules : @RuleCatalog unit := {|
  catalog_init := Ok tt;
  getRuleGroupsMatchingFilters := fun _ => [];
  getRulesMatchingFilters := fun _ => []
|}.

Definition unreadable : @RuleCatalog unit := {|
  catalog_init := Err (Js.ErrorObject "catalog file is not valid JSON");
  getRuleGroupsMatchingFilters := fun _ => [];
  getRulesMatchingFilters := fun _ => []
|}.

(** Two keys in the manner of [EventKey], with the names of the constants,
    and the double quote as a string. *)
Inductive Key : Type := WARNING_INVALID_CAT_SKIPPED | WARNING_XML_DROPPED.

Definition keyName (k : Key) : string :=
  match k with
  | WARNING_INVALID_CAT_SKIPPED => "WARNING_INVALID_CAT_SKIPPED"
  | WARNING_XML_DROPPED => "WARNING_XML_DROPPED"
  end.

Definition q : string := String "034" "".

(** Every promise settles in the order in which it was pushed, or in the
    reverse order. *)
Definition inOrder (i : nat) : nat := i.
Definition reversed (i : nat) : nat := 100 - i.

End Installation.

(** ** Order-preserving selections *)

(** [Subsequence l1 l2]: [l1] is [l2] with some elements left out. *)
Inductive Subsequence {A : Type} : list A -> list A -> Prop :=
| Subsequence_nil : Subsequence [] []
| Subsequence_skip x l1 l2 : Subsequence l1 l2 -> Subsequence l1 (x :: l2)
| Subsequence_keep x l1 l2 : Subsequence l1 l2 -> Subsequence (x :: l1) (x :: l2).

(** ** What a returned RuleTarget is

    A RuleTarget that [unpackTargets] returns for an engine is either marked
    as a directory, and then stands for an existing directory named without
    glob characters and lists the resolved expansion of the engine's
    patterns in it; or it is unmarked, and then lists at least one path,
    each accepted by the inclusive and by the exclusive matcher. *)

Definition resolvedFor {RuleResult EngineOptions : Type} (w : World)
    (engine : @RuleEngine RuleResult EngineOptions) (rt : RuleTarget) : Prop :=
  exists patterns,
    getTargetPatterns engine (target rt) = Some patterns /\
    ((isDirectory rt = Some true /\
      hasMagic w (target rt) = false /\
      exists_ w (target rt) = true /\
      stats_isDirectory w (target rt) = true /\
      paths rt = map (resolve w)
                     (map (fun p => join w (target rt) p)
                          (globby_cwd w patterns (target rt))))
     \/
     (isDirectory rt = None /\
      paths rt <> [] /\
      forall p, In p (paths rt) ->
        picomatch w (filter (fun g => negb (startsWith "!" g)) patterns) p = true /\
        picomatch w (filter (fun g => startsWith "!" g) patterns) p = true)).

(** * Properties *)

(** ** Target resolution *)

Section UnpackTargets.

Context {RuleResult EngineOptions : Type}.
Implicit Types (w : World) (engine : @RuleEngine RuleResult EngineOptions).
Implicit Types (ruleTargets : list RuleTarget) (target : string).

Lemma picomatch_nil w str : picomatch w [] str = false.
Proof. reflexivity. Qed.

(** A pattern list without a '!' pattern has an empty exclusion part. *)
Lemma exclusion_part_nil (patterns : list string) :
  (forall p, In p patterns -> startsWith "!" p = false) ->
  filter (fun p => startsWith "!" p) patterns = [].
Proof.
  induction patterns as [|p rest IH]; intros Hno; [reflexivity|].
  simpl. rewrite (Hno p (or_introl eq_refl)).
  apply IH. intros q Hq. apply Hno. now right.
Qed.

Lemma filter_and_false {A} (f : A -> bool) (l : list A) :
  filter (fun t => f t && false) l = [].
Proof.
  induction l as [|a l IH]; [reflexivity|].
  simpl. now rewrite andb_false_r.
Qed.

(** The loop only ever appends to [ruleTargets]. *)
Lemma unpackTarget_extends w engine ruleTargets target ruleTargets' :
  unpackTarget w engine ruleTargets target = Ok ruleTargets' ->
  ruleTargets' = ruleTargets \/ exists rt, ruleTargets' = ruleTargets ++ [rt].
Proof.
  unfold unpackTarget.
  destruct (getTargetPatterns engine target) as [pats|]; [|discriminate].
  cbv zeta.
  repeat match goal with
         | |- context [if ?b then _ else _] => destruct b
         end;
    intros H; injection H as <-; eauto.
Qed.

(** Whether an answer of [getTargetPatterns] is missing for one of the
    targets. *)
Lemma unpackTargets_from_Err w engine targets : forall ruleTargets,
  (exists x, unpackTargets_from w engine ruleTargets targets = Err x) ->
  unpackTargets_from w engine ruleTargets targets = Err AssertionError /\
  exists t, In t targets /\ getTargetPatterns engine t = None.
Proof.
  induction targets as [|t rest IH]; intros ruleTargets [x Hx].
  - discriminate.
  - simpl in *.
    destruct (unpackTarget w engine ruleTargets t) as [rts'|x'] eqn:Hstep.
    + simpl in *. destruct (IH rts' (ex_intro _ x Hx)) as [He [t' [Hin Hnone]]].
      split; [exact He|]. exists t'. auto.
    + simpl in *. unfold unpackTarget in Hstep.
      destruct (getTargetPatterns engine t) as [pats|] eqn:Hp.
      * cbv zeta in Hstep.
        repeat match type of Hstep with
               | context [if ?b then _ else _] => destruct b
               end; discriminate.
      * injection Hstep as <-. split; [reflexivity|]. exists t. auto.
Qed.

Lemma unpackTargets_from_Ok w engine targets : forall ruleTargets,
  (forall t, In t targets -> getTargetPatterns engine t <> None) ->
  exists ruleTargets', unpackTargets_from w engine ruleTargets targets = Ok ruleTargets'.
Proof.
  induction targets as [|t rest IH]; intros ruleTargets Hall.
  - eexists; reflexivity.
  - simpl.
    destruct (unpackTarget w engine ruleTargets t) as [rts'|x] eqn:Hstep.
    + simpl. apply IH. intros t' Ht'. apply Hall. now right.
    + exfalso.
      destruct (unpackTargets_from_Err w engine [t] ruleTargets) as [_ [t' [Hin Hn]]].
      * exists x. simpl. now rewrite Hstep.
      * destruct Hin as [Heq|[]]. subst t'.
        apply (Hall t (or_introl eq_refl)). exact Hn.
Qed.

End UnpackTargets.

Section UnpackTargetsClaims.

Context {RuleResult EngineOptions : Type}.
Implicit Types (w : World) (engine : @RuleEngine RuleResult EngineOptions).
Implicit Types (ruleTargets : list RuleTarget) (target : string).

Lemma unpackTarget_absent w engine ruleTargets target :
  getTargetPatterns engine target = None ->
  unpackTarget w engine ruleTargets target = Err AssertionError.
Proof. intros H. unfold unpackTarget. now rewrite H. Qed.

Lemma unpackTarget_defined w engine ruleTargets target patterns :
  getTargetPatterns engine target = Some patterns ->
  exists ruleTargets', unpackTarget w engine ruleTargets target = Ok ruleTargets'.
Proof.
  intros H. unfold unpackTarget. rewrite H. cbv zeta.
  repeat match goal with
         | |- context [if ?b then _ else _] => destruct b
         end; eexists; reflexivity.
Qed.

Lemma unpackTargets_from_absent w engine targets : forall ruleTargets t,
  In t targets -> getTargetPatterns engine t = None ->
  unpackTargets_from w engine ruleTargets targets = Err AssertionError.
Proof.
  induction targets as [|t0 rest IH]; intros ruleTargets t Hin Hnone.
  - destruct Hin.
  - simpl.
    destruct (getTargetPatterns engine t0) as [pats|] eqn:Hp.
    + destruct (unpackTarget_defined w engine ruleTargets t0 pats Hp) as [rts' ->].
      simpl. destruct Hin as [->|Hin]; [congruence|].
      now apply (IH rts' t).
    + now rewrite (unpackTarget_absent w engine ruleTargets t0 Hp).
Qed.

Lemma unpackTargets_from_app w engine before : forall ruleTargets after,
  unpackTargets_from w engine ruleTargets (before ++ after) =
  let? ruleTargets' := unpackTargets_from w engine ruleTargets before in
  unpackTargets_from w engine ruleTargets' after.
Proof.
  induction before as [|t rest IH]; intros ruleTargets after; [reflexivity|].
  simpl. destruct (unpackTarget w engine ruleTargets t); simpl; [apply IH|reflexivity].
Qed.

(** A target that is no glob pattern and does not exist adds nothing. *)
Lemma unpackTarget_missing w engine ruleTargets target patterns :
  hasMagic w target = false ->
  exists_ w target = false ->
  getTargetPatterns engine target = Some patterns ->
  unpackTarget w engine ruleTargets target = Ok ruleTargets.
Proof.
  intros Hm He Hp. unfold unpackTarget. now rewrite Hp, Hm, He.
Qed.

(** The targets kept by the glob branch and by the plain-file branch carry
    at least one path. *)
Lemma unpackTarget_nonDirectoryHasPaths w engine ruleTargets target ruleTargets' :
  Forall nonDirectoryHasPaths ruleTargets ->
  unpackTarget w engine ruleTargets target = Ok ruleTargets' ->
  Forall nonDirectoryHasPaths ruleTargets'.
Proof.
  intros Hinv. unfold unpackTarget.
  destruct (getTargetPatterns engine target) as [pats|]; [|discriminate].
  cbv zeta.
  destruct (hasMagic w target).
  - cbn [paths].
    destruct (filter _ (map (resolve w) (globby w target))) as [|p ps] eqn:Hf;
      cbn [length Nat.ltb Nat.leb]; intros H; injection H as <-; [exact Hinv|].
    apply Forall_app; split; [exact Hinv|].
    constructor; [|constructor]. intros _. cbn. discriminate.
  - destruct (exists_ w target); [|intros H; injection H as <-; exact Hinv].
    destruct (stats_isDirectory w target).
    + destruct (truthy pats); intros H; injection H as <-;
        (apply Forall_app; split; [exact Hinv|]);
        (constructor; [|constructor]); intros Hd; discriminate Hd.
    + match goal with |- context [if ?b then _ else _] => destruct b end;
        intros H; injection H as <-; [|exact Hinv].
      apply Forall_app; split; [exact Hinv|].
      constructor; [|constructor]. intros _. cbn. discriminate.
Qed.

Lemma unpackTargets_nonDirectoryHasPaths w engine targets ruleTargets :
  unpackTargets w engine targets = Ok ruleTargets ->
  Forall nonDirectoryHasPaths ruleTargets.
Proof.
  unfold unpackTargets.
  assert (Hgen : forall acc out, Forall nonDirectoryHasPaths acc ->
            unpackTargets_from w engine acc targets = Ok out ->
            Forall nonDirectoryHasPaths out).
  { induction targets as [|t rest IH]; intros acc out Hacc H.
    - injection H as <-. exact Hacc.
    - simpl in H.
      destruct (unpackTarget w engine acc t) as [acc'|x] eqn:Hstep; [|discriminate].
      simpl in H. apply (IH acc' out); [|exact H].
      exact (unpackTarget_nonDirectoryHasPaths w engine acc t acc' Hacc Hstep). }
  apply Hgen. constructor.
Qed.

(** C1, as the code behaves.  When the engine's patterns hold no pattern
    that starts with '!', the exclusive matcher is [picomatch] of the empty
    array, which rejects every path; the conjunction of the two matchers
    then keeps no path, so that a glob target and a plain-file target add no
    RuleTarget whatever the inclusion patterns accept. *)
Theorem C1_empty_exclusion_set_rejects w engine ruleTargets target patterns :
  getTargetPatterns engine target = Some patterns ->
  (forall p, In p patterns -> startsWith "!" p = false) ->
  (forall str,
      picomatch w (filter (fun p => startsWith "!" p) patterns) str = false) /\
  (hasMagic w target = true \/ stats_isDirectory w target = false ->
   unpackTarget w engine ruleTargets target = Ok ruleTargets).
Proof.
  intros Hp Hno.
  pose proof (exclusion_part_nil patterns Hno) as Hex.
  split.
  - intros str. rewrite Hex. apply picomatch_nil.
  - intros Hbranch. unfold unpackTarget. rewrite Hp. cbv zeta. rewrite Hex.
    destruct (hasMagic w target) eqn:Hm.
    + cbn [paths]. unfold picomatch at 2. cbn [existsb].
      rewrite filter_and_false. reflexivity.
    + destruct Hbranch as [Hb|Hb]; [discriminate|].
      rewrite Hb. rewrite picomatch_nil, andb_false_r.
      now destruct (exists_ w target).
Qed.

(** C2, as the code behaves.  For an existing directory and an engine that
    answers the empty pattern sequence, the branch taken is the one that
    expands the patterns in the directory: the RuleTarget holds the resolved
    expansion of no pattern, not the placeholder path. *)
Theorem C2_directory_with_empty_patterns w engine ruleTargets target :
  hasMagic w target = false ->
  exists_ w target = true ->
  stats_isDirectory w target = true ->
  getTargetPatterns engine target = Some [] ->
  unpackTarget w engine ruleTargets target =
  Ok (ruleTargets ++
      [{| target := target; isDirectory := Some true;
          paths := map (resolve w)
                       (map (fun t => join w target t) (globby_cwd w [] target)) |}]).
Proof.
  intros Hm He Hd Hp. unfold unpackTarget. now rewrite Hp, Hm, He, Hd.
Qed.

(** C3, as the code behaves.  A directory target whose pattern expansion
    finds no file is kept all the same, as a RuleTarget with an empty
    [paths]. *)
Theorem C3_directory_kept_with_empty_paths w engine ruleTargets target patterns :
  hasMagic w target = false ->
  exists_ w target = true ->
  stats_isDirectory w target = true ->
  getTargetPatterns engine target = Some patterns ->
  globby_cwd w patterns target = [] ->
  unpackTarget w engine ruleTargets target =
  Ok (ruleTargets ++
      [{| target := target; isDirectory := Some true; paths := [] |}]).
Proof.
  intros Hm He Hd Hp Hg. unfold unpackTarget.
  now rewrite Hp, Hm, He, Hd, Hg.
Qed.

(** C8, amended.  For a target other than the empty string, without glob
    metacharacters, that does not exist on disk, and an engine that answers
    for it a defined sequence of globs that compile, the iteration adds no
    RuleTarget and raises no error: the resolution of a target list is the
    resolution of the list without that target. *)
Theorem C8_missing_target_is_skipped w engine target patterns :
  target <> "" ->
  hasMagic w target = false ->
  exists_ w target = false ->
  getTargetPatterns engine target = Some patterns ->
  Forall globCompiles patterns ->
  (forall ruleTargets,
      unpackTarget w engine ruleTargets target = Ok ruleTargets) /\
  (forall before after,
      unpackTargets w engine (before ++ target :: after) =
      unpackTargets w engine (before ++ after)).
Proof.
  intros _ Hm He Hp _. split.
  - intros ruleTargets. now apply unpackTarget_missing with patterns.
  - intros before after. unfold unpackTargets.
    rewrite !unpackTargets_from_app.
    destruct (unpackTargets_from w engine [] before) as [rts|x]; [|reflexivity].
    simpl. now rewrite (unpackTarget_missing w engine rts target patterns).
Qed.

(** C9.  When the engine answers no pattern sequence for a target, the
    iteration for that target fails with the assertion error, before the
    file system is consulted; and so does [unpackTargets], at that target,
    once the targets before it are resolved.  When the engine answers a
    defined sequence, the empty one included, the iteration does not fail
    with the assertion error; [unpackTargets] fails with it only when the
    answer is missing for one of the targets. *)
Theorem C9_absent_patterns_fail_the_assertion w engine :
  (forall ruleTargets target,
      getTargetPatterns engine target = None ->
      unpackTarget w engine ruleTargets target = Err AssertionError) /\
  (forall before target after ruleTargets,
      unpackTargets w engine before = Ok ruleTargets ->
      getTargetPatterns engine target = None ->
      unpackTargets w engine (before ++ target :: after) = Err AssertionError) /\
  (forall ruleTargets target patterns,
      getTargetPatterns engine target = Some patterns ->
      unpackTarget w engine ruleTargets target <> Err AssertionError) /\
  (forall targets,
      unpackTargets w engine targets = Err AssertionError ->
      exists t, In t targets /\ getTargetPatterns engine t = None).
Proof.
  split; [|split; [|split]].
  - intros ruleTargets target. apply unpackTarget_absent.
  - intros before target after ruleTargets Hb Hn. unfold unpackTargets in *.
    rewrite unpackTargets_from_app, Hb. cbn [bind unpackTargets_from].
    now rewrite (unpackTarget_absent w engine ruleTargets target Hn).
  - intros ruleTargets target patterns Hp.
    destruct (unpackTarget_defined w engine ruleTargets target patterns Hp)
      as [rts' ->]. discriminate.
  - intros targets H. apply (unpackTargets_from_Err w engine targets []).
    exists AssertionError. exact H.
Qed.

End UnpackTargetsClaims.

(** ** Dispatch and recombination *)

Section Dispatch.

Context {RuleFilter RuleResult OUTPUT_FORMAT EngineOptions Report : Type}.
Variable recombine : list RuleResult -> OUTPUT_FORMAT -> Result Js.Value Report.

Implicit Types (w : World) (sched : nat -> nat).
Implicit Types (e : @RuleEngine RuleResult EngineOptions).
Implicit Types (catalog : @RuleCatalog RuleFilter).
Implicit Types (ps : list (Promise (list RuleResult))).

Lemma eligible_true (engineRules : list Rule) (engineTargets : list RuleTarget) :
  eligible engineRules engineTargets = true <->
  engineRules <> [] /\ engineTargets <> [].
Proof.
  unfold eligible. destruct engineRules, engineTargets; cbn; intuition congruence.
Qed.

Lemma dispatchEngine_unfold w sched catalog filters targets engineOptions ps e ts :
  unpackTargets w e targets = Ok ts ->
  dispatchEngine w sched (getRuleGroupsMatchingFilters catalog filters)
                 (getRulesMatchingFilters catalog filters)
                 targets engineOptions ps e =
  if eligible (engineRulesOf catalog filters e) ts
  then Ok (ps ++ [{| settledAt := sched (length ps);
                     outcome := run e (engineGroupsOf catalog filters e)
                                    (engineRulesOf catalog filters e) ts
                                    engineOptions |}])
  else Ok ps.
Proof. intros H. unfold dispatchEngine. rewrite H. reflexivity. Qed.

(** When target resolution succeeds for every engine, the loop pushes one
    promise for each eligible engine, in the order of the engines. *)
Lemma dispatch_from_outcomes w sched catalog filters targets engineOptions es :
  (forall e, In e es -> isOk (unpackTargets w e targets) = true) ->
  forall ps, exists new,
    dispatch_from w sched (getRuleGroupsMatchingFilters catalog filters)
                  (getRulesMatchingFilters catalog filters)
                  targets engineOptions ps es = Ok (ps ++ new) /\
    map outcome new =
    map (runOf w catalog filters targets engineOptions)
        (filter (isDispatched w catalog filters targets) es).
Proof.
  induction es as [|e rest IH]; intros Hok ps.
  - exists []. now rewrite app_nil_r.
  - assert (Hrest : forall e', In e' rest -> isOk (unpackTargets w e' targets) = true)
      by (intros e' He'; apply Hok; now right).
    pose proof (Hok e (or_introl eq_refl)) as He.
    destruct (unpackTargets w e targets) as [ts|x] eqn:Hts; [|discriminate].
    cbn [dispatch_from filter].
    rewrite (dispatchEngine_unfold w sched catalog filters targets engineOptions ps e ts Hts).
    unfold isDispatched at 1, engineTargetsOf at 1. rewrite Hts.
    destruct (eligible (engineRulesOf catalog filters e) ts) eqn:Hel; cbn [bind].
    + destruct (IH Hrest (ps ++ [{| settledAt := sched (length ps);
                    outcome := run e (engineGroupsOf catalog filters e)
                                   (engineRulesOf catalog filters e) ts
                                   engineOptions |}])) as [new [Hd Hm]].
      eexists (_ :: new). rewrite Hd, <- app_assoc. split; [reflexivity|].
      cbn [map outcome]. rewrite Hm. f_equal.
      unfold runOf, engineTargetsOf. now rewrite Hts.
    + destruct (IH Hrest ps) as [new [Hd Hm]]. exists new. now split.
Qed.

(** [Promise.all] *)

Lemma earliestRejection_None {A} (qs : list (Promise A)) :
  earliestRejection qs = None <->
  forall q, In q qs -> isOk (outcome q) = true.
Proof.
  induction qs as [|q rest IH]; cbn.
  - split; [intros _ q []|reflexivity].
  - destruct (outcome q) as [v|x] eqn:Hq.
    + rewrite IH. split.
      * intros H q' [<-|Hin]; [now rewrite Hq|now apply H].
      * intros H q' Hin. apply H. now right.
    + split.
      * destruct (earliestRejection rest) as [[t' e']|];
          [destruct (settledAt q <=? t')%nat|]; discriminate.
      * intros H. specialize (H q (or_introl eq_refl)). rewrite Hq in H. discriminate.
Qed.

Lemma earliestRejection_Some {A} (qs : list (Promise A)) t reason :
  earliestRejection qs = Some (t, reason) ->
  (exists q, In q qs /\ outcome q = Err reason /\ settledAt q = t) /\
  (forall q, In q qs -> isOk (outcome q) = false -> t <= settledAt q).
Proof.
  revert t reason.
  induction qs as [|q rest IH]; cbn; intros t reason H; [discriminate|].
  destruct (outcome q) as [v|x] eqn:Hq.
  - destruct (IH t reason H) as [[q' [Hin [Ho Ht]]] Hmin]. split.
    + exists q'. auto.
    + intros q0 [<-|Hin0] Hrej; [rewrite Hq in Hrej; discriminate|now apply Hmin].
  - destruct (earliestRejection rest) as [[t' e']|] eqn:Hrest.
    + destruct (IH t' e' eq_refl) as [[q' [Hin [Ho Ht]]] Hmin].
      destruct (Nat.leb_spec (settledAt q) t') as [Hle|Hgt];
        injection H as <- <-.
      * split; [exists q; auto|].
        intros q0 [<-|Hin0] Hrej; [lia|].
        specialize (Hmin q0 Hin0 Hrej). lia.
      * split; [exists q'; auto|].
        intros q0 [<-|Hin0] Hrej; [lia|now apply Hmin].
    + injection H as <- <-. split; [exists q; auto|].
      intros q0 [<-|Hin0] Hrej; [lia|].
      apply earliestRejection_None with (q := q0) in Hrest; [|exact Hin0].
      congruence.
Qed.

Lemma concatResults_concat (psResults : list (list RuleResult)) :
  concatResults psResults = concat psResults.
Proof.
  unfold concatResults.
  assert (H : forall acc, fold_left (fun results r => results ++ r) psResults acc
                          = acc ++ concat psResults).
  { induction psResults as [|r rest IH]; intros acc; cbn.
    - now rewrite app_nil_r.
    - now rewrite IH, app_assoc. }
  apply H.
Qed.

Lemma fulfilledValues_outcomes (qs : list (Promise (list RuleResult))) :
  concat (fulfilledValues qs) = concat (map resultsOf (map outcome qs)).
Proof.
  induction qs as [|q rest IH]; [reflexivity|].
  cbn. destruct (outcome q); cbn; now rewrite IH.
Qed.

(** The loop runs through only if target resolution succeeds for every
    engine. *)
Lemma dispatch_from_resolved w sched catalog filters targets engineOptions es :
  forall ps ps',
    dispatch_from w sched (getRuleGroupsMatchingFilters catalog filters)
                  (getRulesMatchingFilters catalog filters)
                  targets engineOptions ps es = Ok ps' ->
    forall e, In e es -> isOk (unpackTargets w e targets) = true.
Proof.
  induction es as [|e0 rest IH]; intros ps ps' H e Hin; [destruct Hin|].
  cbn [dispatch_from] in H.
  destruct (unpackTargets w e0 targets) as [ts|x] eqn:Hts.
  - rewrite (dispatchEngine_unfold w sched catalog filters targets
               engineOptions ps e0 ts Hts) in H.
    destruct Hin as [<-|Hin]; [now rewrite Hts|].
    destruct (eligible (engineRulesOf catalog filters e0) ts);
      cbn [bind] in H; exact (IH _ _ H e Hin).
  - unfold dispatchEngine in H. rewrite Hts in H. discriminate.
Qed.

(** The outcome of the call when every dispatched run is fulfilled. *)
Lemma runRulesMatchingCriteria_fulfilled
    w sched engines catalog filters targets format engineOptions :
  (forall e, In e engines -> isOk (unpackTargets w e targets) = true) ->
  (forall e, In e engines ->
             isDispatched w catalog filters targets e = true ->
             isOk (runOf w catalog filters targets engineOptions e) = true) ->
  runRulesMatchingCriteria recombine w sched engines catalog filters targets
                           format engineOptions =
  rethrowAsSfdxError
    (recombine (resultsInRegistrationOrder w catalog filters targets
                                           engineOptions engines) format).
Proof.
  intros Hok Hruns.
  destruct (dispatch_from_outcomes w sched catalog filters targets engineOptions
              engines Hok []) as [new [Hdisp Hout]].
  cbn [app] in Hdisp.
  assert (Hnone : earliestRejection new = None).
  { apply earliestRejection_None. intros q Hq.
    assert (Hmem : In (outcome q) (map outcome new)) by now apply in_map.
    rewrite Hout in Hmem. apply in_map_iff in Hmem.
    destruct Hmem as [e [Hrun He]]. apply filter_In in He.
    rewrite <- Hrun. now apply Hruns. }
  unfold runRulesMatchingCriteria. rewrite Hdisp. cbn [bind].
  unfold awaitAndRecombine, Promise_all. rewrite Hnone. cbn [bind].
  rewrite concatResults_concat, fulfilledValues_outcomes, Hout.
  unfold resultsInRegistrationOrder. now rewrite map_map.
Qed.

End Dispatch.

Section DispatchClaims.

Context {RuleFilter RuleResult OUTPUT_FORMAT EngineOptions Report : Type}.
Variable recombine : list RuleResult -> OUTPUT_FORMAT -> Result Js.Value Report.

Implicit Types (w : World) (sched : nat -> nat).
Implicit Types (e : @RuleEngine RuleResult EngineOptions).
Implicit Types (engines : list (@RuleEngine RuleResult EngineOptions)).
Implicit Types (engineOptions : EngineOptions) (format : OUTPUT_FORMAT).
Implicit Types (catalog : @RuleCatalog RuleFilter).
Implicit Types (ps : list (Promise (list RuleResult))).

(** C4, as the code behaves.  Once the targets of an engine are resolved,
    its run is dispatched exactly when it has at least one matching rule
    and [unpackTargets] returned at least one RuleTarget, whatever the
    paths of that RuleTarget; otherwise the engine is skipped and the
    iteration raises nothing. *)
Theorem C4_dispatch_iff_rules_and_targets
    w sched catalog filters targets engineOptions ps e ts :
  unpackTargets w e targets = Ok ts ->
  (engineRulesOf catalog filters e <> [] /\ ts <> [] ->
   dispatchEngine w sched (getRuleGroupsMatchingFilters catalog filters)
                  (getRulesMatchingFilters catalog filters)
                  targets engineOptions ps e =
   Ok (ps ++ [{| settledAt := sched (length ps);
                 outcome := run e (engineGroupsOf catalog filters e)
                                (engineRulesOf catalog filters e) ts
                                engineOptions |}])) /\
  (engineRulesOf catalog filters e = [] \/ ts = [] ->
   dispatchEngine w sched (getRuleGroupsMatchingFilters catalog filters)
                  (getRulesMatchingFilters catalog filters)
                  targets engineOptions ps e = Ok ps).
Proof.
  intros Hts.
  rewrite (dispatchEngine_unfold w sched catalog filters targets engineOptions ps e ts Hts).
  split.
  - intros H. apply eligible_true in H. now rewrite H.
  - intros H.
    destruct (eligible (engineRulesOf catalog filters e) ts) eqn:Hel; [|reflexivity].
    apply eligible_true in Hel. destruct Hel, H; contradiction.
Qed.

(** C5, amended.  When target resolution succeeds for every engine and the
    run of some dispatched engine rejects, the call fails and returns no
    report.  The failure comes from the catch clause, for the reason [e]
    with which the run of a dispatched engine rejects: one [SfdxError],
    constructed from that engine's message when [e] is an error with a
    non-empty message, from the error itself when its message is empty,
    and from the rejected string when [e] is a string; and the [TypeError]
    of reading [e.message] when [e] is [undefined] or [null]. *)
Theorem C5_rejection_fails_the_run
    w sched engines catalog filters targets format engineOptions :
  (forall e, In e engines -> isOk (unpackTargets w e targets) = true) ->
  (exists e, In e engines /\
             isDispatched w catalog filters targets e = true /\
             isOk (runOf w catalog filters targets engineOptions e) = false) ->
  exists e reason,
    In e engines /\
    isDispatched w catalog filters targets e = true /\
    runOf w catalog filters targets engineOptions e = Err reason /\
    (forall report,
        runRulesMatchingCriteria recombine w sched engines catalog filters
                                 targets format engineOptions <> Ok report) /\
    (forall message,
        reason = Js.ErrorObject message -> message <> "" ->
        runRulesMatchingCriteria recombine w sched engines catalog filters
                                 targets format engineOptions =
        Err (SfdxError (Js.Str message))) /\
    (reason = Js.ErrorObject "" ->
     runRulesMatchingCriteria recombine w sched engines catalog filters
                              targets format engineOptions =
     Err (SfdxError (Js.ErrorObject ""))) /\
    (forall s,
        reason = Js.Str s ->
        runRulesMatchingCriteria recombine w sched engines catalog filters
                                 targets format engineOptions =
        Err (SfdxError (Js.Str s))) /\
    (reason = Js.Undefined \/ reason = Js.Null ->
     runRulesMatchingCriteria recombine w sched engines catalog filters
                              targets format engineOptions =
     Err TypeError).
Proof.
  intros Hok [e0 [Hin0 [Hd0 Hrej0]]].
  destruct (dispatch_from_outcomes w sched catalog filters targets engineOptions
              engines Hok []) as [new [Hdisp Hout]].
  cbn [app] in Hdisp.
  (* some promise of [new] is rejected *)
  destruct (earliestRejection new) as [[t reason]|] eqn:Hearly.
  - destruct (earliestRejection_Some new t reason Hearly) as [[q [Hq [Hoq _]]] _].
    assert (Hmem : In (Err reason) (map outcome new))
      by (rewrite <- Hoq; now apply in_map).
    rewrite Hout in Hmem. apply in_map_iff in Hmem.
    destruct Hmem as [e [Hrun He]]. apply filter_In in He. destruct He as [Hin Hd].
    assert (Hrun' : runRulesMatchingCriteria recombine w sched engines catalog
                      filters targets format engineOptions =
                    rethrowAsSfdxError (Err reason)).
    { unfold runRulesMatchingCriteria. rewrite Hdisp. cbn [bind].
      unfold awaitAndRecombine, Promise_all. rewrite Hearly. reflexivity. }
    exists e, reason. rewrite Hrun'.
    split; [exact Hin|]. split; [exact Hd|]. split; [exact Hrun|].
    split; [|split; [|split; [|split]]].
    + intros report. cbn. destruct (Js.isNullish reason); discriminate.
    + intros message -> Hne. cbn.
      destruct (String.eqb_spec message ""); [contradiction|reflexivity].
    + intros ->. reflexivity.
    + intros s ->. reflexivity.
    + intros [->| ->]; reflexivity.
  - exfalso.
    assert (Hmem : In (runOf w catalog filters targets engineOptions e0)
                      (map outcome new)).
    { rewrite Hout. apply in_map. apply filter_In. now split. }
    apply in_map_iff in Hmem. destruct Hmem as [q [Hoq Hq]].
    pose proof (proj1 (earliestRejection_None new) Hearly q Hq) as Hfine.
    rewrite Hoq in Hfine. congruence.
Qed.

(** C6.  When the dispatch loop has run through and every dispatched run
    is fulfilled, the promises stand for the eligible engines in the order
    of the registered engine sequence, [Promise.all] answers their result
    lists in that order, and the list handed to recombination is their
    concatenation; the outcome of the call is what recombination answers
    for that list, at whatever moments the runs settle. *)
Theorem C6_results_in_registration_order
    w sched engines catalog filters targets format engineOptions ps :
  dispatch_from w sched (getRuleGroupsMatchingFilters catalog filters)
                (getRulesMatchingFilters catalog filters)
                targets engineOptions [] engines = Ok ps ->
  (forall p, In p ps -> isOk (outcome p) = true) ->
  map outcome ps =
  map (runOf w catalog filters targets engineOptions)
      (filter (isDispatched w catalog filters targets) engines) /\
  Promise_all ps = Ok (fulfilledValues ps) /\
  concatResults (fulfilledValues ps) =
  resultsInRegistrationOrder w catalog filters targets engineOptions engines /\
  (forall sched',
      runRulesMatchingCriteria recombine w sched' engines catalog filters
                               targets format engineOptions =
      rethrowAsSfdxError
        (recombine (resultsInRegistrationOrder w catalog filters targets
                                               engineOptions engines) format)).
Proof.
  intros Hdisp Hall.
  pose proof (dispatch_from_resolved w sched catalog filters targets
                engineOptions engines [] ps Hdisp) as Hok.
  destruct (dispatch_from_outcomes w sched catalog filters targets engineOptions
              engines Hok []) as [new [Hdisp' Hout]].
  cbn [app] in Hdisp'. rewrite Hdisp in Hdisp'. injection Hdisp' as ->.
  assert (Hnone : earliestRejection new = None)
    by now apply earliestRejection_None.
  split; [exact Hout|]. split; [|split].
  - unfold Promise_all. now rewrite Hnone.
  - rewrite concatResults_concat, fulfilledValues_outcomes, Hout.
    unfold resultsInRegistrationOrder. now rewrite map_map.
  - intros sched'. apply runRulesMatchingCriteria_fulfilled; [exact Hok|].
    intros e Hin Hd.
    assert (Hmem : In (runOf w catalog filters targets engineOptions e)
                      (map outcome new)).
    { rewrite Hout. apply in_map. apply filter_In. now split. }
    apply in_map_iff in Hmem. destruct Hmem as [q [<- Hq]]. now apply Hall.
Qed.

End DispatchClaims.

(** ** Initialisation *)

Section Init.

Context {RuleFilter RuleResult EngineOptions : Type}.
Implicit Types (st : @State RuleFilter RuleResult EngineOptions).
Implicit Types (es : list (@RuleEngine RuleResult EngineOptions)).

Lemma initEngines_ok es : forall log log',
  initEngines es log = (Ok tt, log') ->
  log' = log ++ map (fun e => EngineInit (getName e)) es.
Proof.
  induction es as [|e rest IH]; intros log log' H; cbn in *.
  - injection H as <-. now rewrite app_nil_r.
  - destruct (engine_init e) as [[]|v]; [|discriminate].
    rewrite (IH _ _ H), <- app_assoc. reflexivity.
Qed.

Lemma init_ok_initialized st st' :
  init st = (Ok tt, st') -> initialized (fst st') = true.
Proof.
  destruct st as [this log]. unfold init.
  destruct (initialized this) eqn:Hi.
  - intros H. injection H as <-. exact Hi.
  - cbn [engines catalog].
    destruct (initEngines (engines this) _) as [[[]|x] log2]; [|discriminate].
    destruct (catalog_init (catalog this)) as [[]|v]; [|discriminate].
    intros H. injection H as <-. reflexivity.
Qed.

Lemma init_initialized st :
  initialized (fst st) = true -> init st = (Ok tt, st).
Proof.
  destruct st as [this log]. cbn [fst]. intros Hi. unfold init. now rewrite Hi.
Qed.

Lemma init_times_initialized st n :
  initialized (fst st) = true -> init_times n st = st.
Proof.
  intros Hi. induction n as [|n IH]; [reflexivity|].
  cbn [init_times]. rewrite (init_initialized st Hi). exact IH.
Qed.

(** C7.  After a call of [init] that succeeds, a further call returns at
    once, leaving the object and the record of calls on the engines and the
    catalog as they are, however often it is repeated; counted from a
    manager that is not yet initialised, the calls made by any number of
    [init] calls are one [init] of every engine, in order, and one of the
    catalog. *)
Theorem C7_init_idempotent st st' :
  init st = (Ok tt, st') ->
  init st' = (Ok tt, st') /\
  (forall n, init_times n st' = st') /\
  (forall n, init_times (S n) st = st') /\
  (initialized (fst st) = false ->
   snd st' = snd st ++ [LoggerChild "DefaultManager"] ++
             map (fun e => EngineInit (getName e)) (engines (fst st)) ++
             [CatalogInit]).
Proof.
  intros H. pose proof (init_ok_initialized st st' H) as Hi.
  repeat split.
  - now apply init_initialized.
  - intros n. now apply init_times_initialized.
  - intros n. cbn [init_times]. rewrite H. cbn [snd].
    now apply init_times_initialized.
  - destruct st as [this log]. cbn [fst snd]. intros Hno.
    unfold init in H. rewrite Hno in H. cbn [engines catalog] in H.
    destruct (initEngines (engines this) _) as [[[]|x] log2] eqn:He; [|discriminate].
    destruct (catalog_init (catalog this)) as [[]|v]; [|discriminate].
    injection H as <-. cbn [snd].
    rewrite (initEngines_ok _ _ _ He), <- !app_assoc. reflexivity.
Qed.

End Init.

(** ** Warning messages *)

Section Messages.

Import SfdxMessager.
Local Open Scope string_scope.

Lemma singleLine_app (a b : string) :
  singleLine (a ++ b) = singleLine a && singleLine b.
Proof.
  induction a as [|c a IH]; [reflexivity|].
  cbn. now rewrite IH, andb_assoc.
Qed.

Lemma replacement_singleLine (c : ascii) : singleLine (Gson.replacement c) = true.
Proof.
  destruct c as [[] [] [] [] [] [] [] []]; vm_compute; reflexivity.
Qed.

Lemma escape_singleLine (s : string) : singleLine (Gson.escape s) = true.
Proof.
  induction s as [|c s IH]; [reflexivity|].
  cbn [Gson.escape]. now rewrite singleLine_app, replacement_singleLine, IH.
Qed.

Lemma string__singleLine (s : string) : singleLine (Gson.string_ s) = true.
Proof.
  unfold Gson.string_. cbn [singleLine].
  rewrite singleLine_app, escape_singleLine. reflexivity.
Qed.

Lemma stringOrNull_singleLine (s : option string) :
  singleLine (Gson.stringOrNull s) = true.
Proof. destruct s; [apply string__singleLine|reflexivity]. Qed.

Lemma string_of_uint_singleLine (d : Decimal.uint) :
  singleLine (NilEmpty.string_of_uint d) = true.
Proof. induction d; cbn; auto. Qed.

Lemma nilzero_string_of_uint_singleLine (d : Decimal.uint) :
  singleLine (NilZero.string_of_uint d) = true.
Proof.
  destruct d; [reflexivity|..];
    unfold NilZero.string_of_uint; apply string_of_uint_singleLine.
Qed.

Lemma long_singleLine (z : Z) : singleLine (Gson.long z) = true.
Proof.
  unfold Gson.long, NilZero.string_of_int.
  destruct (Z.to_int z) as [d|d]; cbn [singleLine];
    rewrite ?nilzero_string_of_uint_singleLine; reflexivity.
Qed.

Lemma concat_singleLine (sep : string) (l : list string) :
  singleLine sep = true ->
  Forall (fun s => singleLine s = true) l ->
  singleLine (String.concat sep l) = true.
Proof.
  intros Hsep. induction 1 as [|s l Hs Hl IH]; [reflexivity|].
  cbn [String.concat]. destruct l as [|s' l']; [exact Hs|].
  rewrite !singleLine_app, Hs, Hsep. exact IH.
Qed.

Lemma array_singleLine (elements : list string) :
  Forall (fun s => singleLine s = true) elements ->
  singleLine (Gson.array elements) = true.
Proof.
  intros H. unfold Gson.array.
  rewrite !singleLine_app, concat_singleLine; auto.
Qed.

Lemma field_singleLine (name : string) (value : option string) :
  (forall v, value = Some v -> singleLine v = true) ->
  Forall (fun s => singleLine s = true) (Gson.field name value).
Proof.
  intros H. destruct value as [v|]; unfold Gson.field; constructor; [|constructor].
  rewrite !singleLine_app, string__singleLine, (H v eq_refl). reflexivity.
Qed.

Lemma object_singleLine (fields : list string) :
  Forall (fun s => singleLine s = true) fields ->
  singleLine (Gson.object fields) = true.
Proof.
  intros H. unfold Gson.object.
  rewrite !singleLine_app, concat_singleLine; auto.
Qed.

Lemma toJson_singleLine (EventKey : Type) (name : EventKey -> string)
    (m : SfdxMessage EventKey) :
  singleLine (toJson EventKey name m) = true.
Proof.
  unfold toJson. apply object_singleLine.
  repeat (apply Forall_app; split); apply field_singleLine.
  - intros v Hv. destruct (key EventKey m); [|discriminate].
    injection Hv as <-. apply string__singleLine.
  - intros v Hv. destruct (args EventKey m) as [l|]; [|discriminate].
    injection Hv as <-. apply array_singleLine.
    apply Forall_forall. intros s Hs. apply in_map_iff in Hs.
    destruct Hs as [o [<- _]]. apply stringOrNull_singleLine.
  - intros v Hv. injection Hv as <-. apply string__singleLine.
  - intros v Hv. injection Hv as <-. apply string__singleLine.
  - intros v Hv. injection Hv as <-. now destruct (verbose EventKey m).
  - intros v Hv. injection Hv as <-. apply long_singleLine.
Qed.

Lemma append_assoc (a b c : string) : (a ++ b) ++ c = a ++ (b ++ c).
Proof. induction a as [|x a IH]; cbn; [reflexivity|now rewrite IH]. Qed.

Lemma replacement_plain (c : ascii) :
  writtenPlain c = true -> Gson.replacement c = String c "".
Proof.
  destruct c as [[] [] [] [] [] [] [] []]; vm_compute;
    intros H; solve [discriminate H | reflexivity].
Qed.

Lemma escape_plain (s : string) :
  allChars writtenPlain s = true -> Gson.escape s = s.
Proof.
  induction s as [|c s IH]; [reflexivity|].
  cbn [allChars Gson.escape]. intros H. apply andb_true_iff in H.
  destruct H as [Hc Hs]. now rewrite (replacement_plain c Hc), (IH Hs).
Qed.

(** C10.  [uxWarn] appends to the error stream one line: the text
    "SFDX-START", the JSON object of the message, the text "SFDX-END", and
    the line separator.  The object lists, in this order and separated by
    commas, the key by its name and the arguments as an array of strings
    (each of the two left out when it is [null]), the type WARNING, the
    handler UX, the verbose flag and the time; strings stand between double
    quotes, written as they are when they hold plain chars only and with
    escapes otherwise, so that the text before the separator holds no line
    break.  The variant without a flag writes the same with the flag
    off. *)
Theorem C10_warning_is_one_bracketed_line
    (EventKey : Type) (name : EventKey -> string)
    (now : Z) (err : string) (k : option EventKey)
    (a : option (list (option string))) (v : bool) :
  let q := String "034" "" in
  let keyField :=
    match k with
    | Some key => q ++ "key" ++ q ++ ":" ++ q ++ Gson.escape (name key) ++ q ++ ","
    | None => ""
    end in
  let element := fun o : option string =>
    match o with
    | Some s => q ++ Gson.escape s ++ q
    | None => "null"
    end in
  let argsField :=
    match a with
    | Some l => q ++ "args" ++ q ++ ":[" ++ String.concat "," (map element l) ++ "],"
    | None => ""
    end in
  let json := fun flag : bool =>
    "{" ++ keyField ++ argsField ++
    q ++ "type" ++ q ++ ":" ++ q ++ "WARNING" ++ q ++ "," ++
    q ++ "handler" ++ q ++ ":" ++ q ++ "UX" ++ q ++ "," ++
    q ++ "verbose" ++ q ++ ":" ++ (if flag then "true" else "false") ++ "," ++
    q ++ "time" ++ q ++ ":" ++ NilZero.string_of_int (Z.to_int now) ++ "}" in
  toJson EventKey name
         {| key := k; args := a; type := WARNING; handler := UX;
            verbose := v; time := now |} = json v /\
  uxWarn EventKey name now err k a v =
  err ++ "SFDX-START" ++ json v ++ "SFDX-END" ++ lineSeparator /\
  uxWarn_default EventKey name now err k a =
  err ++ "SFDX-START" ++ json false ++ "SFDX-END" ++ lineSeparator /\
  singleLine ("SFDX-START" ++ json v ++ "SFDX-END") = true /\
  (forall s, allChars writtenPlain s = true -> Gson.escape s = s).
Proof.
  cbv zeta.
  assert (Hjson : forall flag,
    toJson EventKey name
           {| key := k; args := a; type := WARNING; handler := UX;
              verbose := flag; time := now |} =
    "{" ++
    match k with
    | Some key => String "034" "" ++ "key" ++ String "034" "" ++ ":" ++
                  String "034" "" ++ Gson.escape (name key) ++
                  String "034" "" ++ ","
    | None => ""
    end ++
    match a with
    | Some l => String "034" "" ++ "args" ++ String "034" "" ++ ":[" ++
                String.concat ","
                  (map (fun o : option string =>
                          match o with
                          | Some s => String "034" "" ++ Gson.escape s ++
                                      String "034" ""
                          | None => "null"
                          end) l) ++ "],"
    | None => ""
    end ++
    String "034" "" ++ "type" ++ String "034" "" ++ ":" ++
    String "034" "" ++ "WARNING" ++ String "034" "" ++ "," ++
    String "034" "" ++ "handler" ++ String "034" "" ++ ":" ++
    String "034" "" ++ "UX" ++ String "034" "" ++ "," ++
    String "034" "" ++ "verbose" ++ String "034" "" ++ ":" ++
    (if flag then "true" else "false") ++ "," ++
    String "034" "" ++ "time" ++ String "034" "" ++ ":" ++
    NilZero.string_of_int (Z.to_int now) ++ "}").
  { intros flag. unfold toJson, Gson.object, Gson.field, Gson.array,
      Gson.boolean, Gson.long, Gson.stringOrNull, Gson.string_.
    cbn [key args type handler verbose time option_map MessageType_name
         MessageHandler_name].
    change (Gson.escape "key") with "key".
    change (Gson.escape "args") with "args".
    change (Gson.escape "type") with "type".
    change (Gson.escape "handler") with "handler".
    change (Gson.escape "verbose") with "verbose".
    change (Gson.escape "time") with "time".
    change (Gson.escape "WARNING") with "WARNING".
    change (Gson.escape "UX") with "UX".
    destruct k as [key|], a as [l|];
      cbn [option_map app String.concat append];
      repeat (first [rewrite append_assoc | progress (cbn [append])]);
      reflexivity. }
  split; [apply Hjson|]. split; [|split; [|split]].
  - unfold uxWarn, println, formatMessage, new_SfdxMessage, START, END_.
    rewrite Hjson, !append_assoc. reflexivity.
  - unfold uxWarn_default, uxWarn, println, formatMessage, new_SfdxMessage,
      START, END_.
    rewrite Hjson, !append_assoc. reflexivity.
  - rewrite <- Hjson.
    change ("SFDX-START" ++ toJson EventKey name ?m ++ "SFDX-END")
      with ("SFDX-START" ++ (toJson EventKey name m ++ "SFDX-END")).
    rewrite !singleLine_app, toJson_singleLine. reflexivity.
  - apply escape_plain.
Qed.

End Messages.

(** ** The properties on the small installation *)

Section OnTheInstallation.

Import Installation.

(** A file, a glob pattern, a directory and a missing path, for an engine
    with an inclusion and an exclusion pattern. *)
Example unpackTargets_pmdExcluding :
  unpackTargets posix pmdExcluding
                ["src/Foo.cls"; "src/*.cls"; "src"; "nonexistent/path"] =
  Ok [{| target := "src/Foo.cls"; isDirectory := None;
         paths := ["/w/src/Foo.cls"] |};
      {| target := "src/*.cls"; isDirectory := None;
         paths := ["/w/src/Foo.cls"] |};
      {| target := "src"; isDirectory := Some true;
         paths := ["/w/src/Foo.cls"] |}].
Proof. reflexivity. Qed.

(** The reason reported is the one of the rejection that [Promise.all]
    sees first. *)
Example first_rejection_is_reported :
  runRulesMatchingCriteria recombine posix inOrder [crashing; crashingToo]
                           rulesOfBoth [tt] ["src"] tt [] =
  Err (SfdxError (Js.Str "PMD exited with code 4")) /\
  runRulesMatchingCriteria recombine posix reversed [crashing; crashingToo]
                           rulesOfBoth [tt] ["src"] tt [] =
  Err (SfdxError (Js.Str "ESLint could not parse")).
Proof. split; reflexivity. Qed.

(** A rejected [init] leaves the manager uninitialised: the next call makes
    the calls again. *)
Example init_rejected_runs_again :
  init (construct [uninstalled] rulesOfBoth, []) =
  (Err (Rejection (Js.ErrorObject "java not found")),
   ({| engines := [uninstalled]; catalog := rulesOfBoth;
       logger := Some "DefaultManager"; fileHandler := true;
       initialized := false |},
    [LoggerChild "DefaultManager"; EngineInit "pmd"])) /\
  snd (init_times 2 (construct [uninstalled] rulesOfBoth, [])) =
  [LoggerChild "DefaultManager"; EngineInit "pmd";
   LoggerChild "DefaultManager"; EngineInit "pmd"].
Proof. split; reflexivity. Qed.

(** The patterns of [pmd] hold no exclusion, its inclusion pattern accepts
    the resolved path of [src/Foo.cls], and yet the file is not kept. *)
Lemma C1_on_installation :
  picomatch posix (filter (fun p => negb (startsWith "!" p)) ["**/*.cls"])
            (resolve posix "src/Foo.cls") = true /\
  (forall str,
      picomatch posix (filter (fun p => startsWith "!" p) ["**/*.cls"]) str
      = false) /\
  unpackTarget posix pmd [] "src/Foo.cls" = Ok [] /\
  unpackTarget posix pmd [] "src/*.cls" = Ok [].
Proof.
  split; [reflexivity|].
  assert (Hno : forall p, In p ["**/*.cls"] -> startsWith "!" p = false)
    by (intros p [<-|[]]; reflexivity).
  split; [|split].
  - exact (proj1 (C1_empty_exclusion_set_rejects posix pmd [] "src/Foo.cls"
                    ["**/*.cls"] eq_refl Hno)).
  - exact (proj2 (C1_empty_exclusion_set_rejects posix pmd [] "src/Foo.cls"
                    ["**/*.cls"] eq_refl Hno) (or_intror eq_refl)).
  - exact (proj2 (C1_empty_exclusion_set_rejects posix pmd [] "src/*.cls"
                    ["**/*.cls"] eq_refl Hno) (or_introl eq_refl)).
Defined.

(** The directory [src] for an engine with the empty pattern sequence: one
    RuleTarget, with no path. *)
Lemma C2_on_installation :
  unpackTarget posix patternless [] "src" =
  Ok [{| target := "src"; isDirectory := Some true; paths := [] |}] /\
  unpackTargets posix patternless ["src"] <>
  Ok [{| target := "src"; isDirectory := Some true; paths := ["."] |}].
Proof.
  split.
  - exact (C2_directory_with_empty_patterns posix patternless [] "src"
             eq_refl eq_refl eq_refl eq_refl).
  - discriminate.
Defined.

(** The directory [empty] holds no file for the patterns of [pmd]. *)
Lemma C3_on_installation :
  unpackTarget posix pmd [] "empty" =
  Ok [{| target := "empty"; isDirectory := Some true; paths := [] |}].
Proof.
  exact (C3_directory_kept_with_empty_paths posix pmd [] "empty" ["**/*.cls"]
           eq_refl eq_refl eq_refl eq_refl eq_refl).
Defined.

(** With the one target [empty], no RuleTarget of [pmdExcluding] has a
    path, and its run is dispatched. *)
Lemma C4_on_installation :
  unpackTargets posix pmdExcluding ["empty"] =
  Ok [{| target := "empty"; isDirectory := Some true; paths := [] |}] /\
  existsb (fun t => (0 <? length (paths t))%nat)
          [{| target := "empty"; isDirectory := Some true; paths := [] |}]
  = false /\
  dispatchEngine posix inOrder
                 (getRuleGroupsMatchingFilters rulesOfBoth [tt])
                 (getRulesMatchingFilters rulesOfBoth [tt])
                 ["empty"] [] [] pmdExcluding =
  Ok [{| settledAt := 0;
         outcome := Ok ["pmd: Foo.cls line 1"; "pmd: Foo.cls line 7"] |}].
Proof.
  split; [reflexivity|]. split; [reflexivity|].
  refine (proj1 (C4_dispatch_iff_rules_and_targets posix inOrder rulesOfBoth
                   [tt] ["empty"] [] [] pmdExcluding _ eq_refl) _).
  split; discriminate.
Defined.

(** C5 as stated fails.  The run of [crashing] is dispatched and rejects;
    the next engine answers no patterns, and the call fails with the
    assertion error, which carries nothing of the message of [crashing]. *)
Lemma C5_message_lost_to_assertion :
  dispatchEngine posix inOrder
                 (getRuleGroupsMatchingFilters rulesOfBoth [tt])
                 (getRulesMatchingFilters rulesOfBoth [tt])
                 ["src"] [] [] crashing =
  Ok [{| settledAt := 0;
         outcome := Err (Js.ErrorObject "PMD exited with code 4") |}] /\
  runRulesMatchingCriteria recombine posix inOrder [crashing; answerless]
                           rulesOfBoth [tt] ["src"] tt [] =
  Err AssertionError /\
  AssertionError <> SfdxError (Js.Str "PMD exited with code 4").
Proof.
  repeat split; discriminate.
Qed.

Lemma C5_on_installation :
  runRulesMatchingCriteria recombine posix reversed [pmd; crashing; eslint]
                           rulesOfBoth [tt] ["src"] tt [] =
  Err (SfdxError (Js.Str "PMD exited with code 4")) /\
  runRulesMatchingCriteria recombine posix inOrder [pmd; vanishing]
                           rulesOfBoth [tt] ["src"] tt [] =
  Err TypeError.
Proof.
  split.
  - destruct (C5_rejection_fails_the_run recombine posix reversed
                [pmd; crashing; eslint] rulesOfBoth [tt] ["src"] tt [])
      as [e [reason [Hin [_ [Hrun [_ [Hmsg _]]]]]]].
    + intros e [<-|[<-|[<-|[]]]]; reflexivity.
    + exists crashing. split; [right; left; reflexivity|]. split; reflexivity.
    + destruct Hin as [<-|[<-|[<-|[]]]]; try discriminate Hrun.
      injection Hrun as <-. apply (Hmsg "PMD exited with code 4" eq_refl).
      discriminate.
  - destruct (C5_rejection_fails_the_run recombine posix inOrder
                [pmd; vanishing] rulesOfBoth [tt] ["src"] tt [])
      as [e [reason [Hin [_ [Hrun [_ [_ [_ [_ Hnull]]]]]]]]].
    + intros e [<-|[<-|[]]]; reflexivity.
    + exists vanishing. split; [right; left; reflexivity|]. split; reflexivity.
    + destruct Hin as [<-|[<-|[]]]; try discriminate Hrun.
      injection Hrun as <-. apply Hnull. now left.
Defined.

Lemma C6_on_installation :
  runRulesMatchingCriteria recombine posix reversed [pmdExcluding; eslint]
                           rulesOfBoth [tt] ["src"] tt [] =
  Ok ["pmd: Foo.cls line 1"; "pmd: Foo.cls line 7"; "eslint: bar.js line 2"].
Proof.
  refine (proj2 (proj2 (proj2
    (C6_results_in_registration_order recombine posix inOrder
       [pmdExcluding; eslint] rulesOfBoth [tt] ["src"] tt []
       [{| settledAt := 0;
           outcome := Ok ["pmd: Foo.cls line 1"; "pmd: Foo.cls line 7"] |};
        {| settledAt := 1; outcome := Ok ["eslint: bar.js line 2"] |}]
       eq_refl _))) reversed).
  intros p [<-|[<-|[]]]; reflexivity.
Defined.

Lemma C7_on_installation :
  init_times 3 (construct [pmd; eslint] rulesOfBoth, []) =
  snd (init (construct [pmd; eslint] rulesOfBoth, [])) /\
  snd (snd (init (construct [pmd; eslint] rulesOfBoth, []))) =
  [LoggerChild "DefaultManager"; EngineInit "pmd"; EngineInit "eslint";
   CatalogInit].
Proof.
  destruct (C7_init_idempotent (construct [pmd; eslint] rulesOfBoth, [])
              (snd (init (construct [pmd; eslint] rulesOfBoth, []))) eq_refl)
    as [_ [_ [Hn Hlog]]].
  split; [exact (Hn 2)|exact (Hlog eq_refl)].
Defined.

(** C8 as stated fails for an engine that answers no pattern sequence: the
    assertion comes before the look at the disk. *)
Lemma C8_missing_target_raises :
  hasMagic posix "nonexistent/path" = false /\
  exists_ posix "nonexistent/path" = false /\
  unpackTargets posix answerless ["nonexistent/path"] = Err AssertionError.
Proof. repeat split. Qed.

Lemma C8_on_installation :
  unpackTarget posix pmd [] "nonexistent/path" = Ok [] /\
  unpackTargets posix pmdExcluding ["src/Foo.cls"; "nonexistent/path"; "src"] =
  unpackTargets posix pmdExcluding ["src/Foo.cls"; "src"].
Proof.
  split.
  - refine (proj1 (C8_missing_target_is_skipped posix pmd "nonexistent/path"
                     ["**/*.cls"] _ eq_refl eq_refl eq_refl _) []).
    + discriminate.
    + repeat constructor; [discriminate|cbn; lia].
  - refine (proj2 (C8_missing_target_is_skipped posix pmdExcluding
                     "nonexistent/path" ["**/*.cls"; "!**/Ignored.cls"]
                     _ eq_refl eq_refl eq_refl _) ["src/Foo.cls"] ["src"]).
    + discriminate.
    + repeat constructor; try discriminate; cbn; lia.
Defined.

Lemma C9_on_installation :
  unpackTarget posix answerless [] "src" = Err AssertionError /\
  unpackTargets posix answerless ["src"; "nonexistent/path"] = Err AssertionError /\
  unpackTarget posix patternless [] "src" <> Err AssertionError.
Proof.
  split; [|split].
  - exact (proj1 (C9_absent_patterns_fail_the_assertion posix answerless)
             [] "src" eq_refl).
  - exact (proj1 (proj2 (C9_absent_patterns_fail_the_assertion posix answerless))
             [] "src" ["nonexistent/path"] [] eq_refl eq_refl).
  - exact (proj1 (proj2 (proj2
             (C9_absent_patterns_fail_the_assertion posix patternless)))
             [] "src" [] eq_refl).
Defined.

End OnTheInstallation.

Section WarningOnTheInstallation.

Import Installation.
Local Open Scope string_scope.

(** A warning with a file name, a [null] and a text of a quote, a
    less-than sign, a line feed and a backslash as its arguments. *)
Lemma C10_on_installation :
  SfdxMessager.uxWarn Key keyName 1589000000123 ""
    (Some WARNING_XML_DROPPED)
    (Some [Some "src/Foo.cls"; None;
           Some (String "034" ("a<b" ++ String "010" "\"))])
    true =
  "SFDX-START{" ++ q ++ "key" ++ q ++ ":" ++ q ++ "WARNING_XML_DROPPED" ++ q ++
  "," ++ q ++ "args" ++ q ++ ":[" ++ q ++ "src/Foo.cls" ++ q ++ ",null," ++
  q ++ "\" ++ q ++ "a\u003cb\n\\" ++ q ++ "]," ++
  q ++ "type" ++ q ++ ":" ++ q ++ "WARNING" ++ q ++ "," ++
  q ++ "handler" ++ q ++ ":" ++ q ++ "UX" ++ q ++ "," ++
  q ++ "verbose" ++ q ++ ":true," ++
  q ++ "time" ++ q ++ ":1589000000123}SFDX-END" ++
  SfdxMessager.lineSeparator.
Proof.
  exact (proj1 (proj2
    (C10_warning_is_one_bracketed_line Key keyName 1589000000123 ""
       (Some WARNING_XML_DROPPED)
       (Some [Some "src/Foo.cls"; None;
              Some (String "034" ("a<b" ++ String "010" "\"))])
       true))).
Defined.

End WarningOnTheInstallation.

(** * Further properties of the code *)

(** ** Target resolution, target by target *)

Section UnpackTargetsStructure.

Context {RuleResult EngineOptions : Type}.
Implicit Types (w : World) (engine : @RuleEngine RuleResult EngineOptions).
Implicit Types (ruleTargets : list RuleTarget) (t : string).

(** An iteration does not read the array it pushes to. *)
Lemma unpackTarget_acc w engine ruleTargets t :
  unpackTarget w engine ruleTargets t =
  let? new := unpackTarget w engine [] t in Ok (ruleTargets ++ new).
Proof.
  unfold unpackTarget.
  destruct (getTargetPatterns engine t) as [pats|]; [|reflexivity].
  cbv zeta.
  repeat match goal with
         | |- context [if ?b then _ else _] => destruct b
         end; cbn [bind app]; now rewrite ?app_nil_r.
Qed.

Lemma unpackTargets_from_acc w engine targets : forall ruleTargets,
  unpackTargets_from w engine ruleTargets targets =
  let? new := unpackTargets w engine targets in Ok (ruleTargets ++ new).
Proof.
  unfold unpackTargets.
  induction targets as [|t rest IH]; intros ruleTargets.
  - cbn. now rewrite app_nil_r.
  - cbn [unpackTargets_from].
    rewrite (unpackTarget_acc w engine ruleTargets t).
    destruct (unpackTarget w engine [] t) as [new|x]; [|reflexivity].
    cbn [bind]. rewrite (IH (ruleTargets ++ new)), (IH new).
    destruct (unpackTargets_from w engine [] rest) as [more|x]; [|reflexivity].
    cbn [bind]. now rewrite app_assoc.
Qed.

(** What one iteration adds: nothing, or one RuleTarget for the target. *)
Lemma unpackTarget_adds w engine ruleTargets t ruleTargets' :
  unpackTarget w engine ruleTargets t = Ok ruleTargets' ->
  ruleTargets' = ruleTargets \/
  exists rt, ruleTargets' = ruleTargets ++ [rt] /\ target rt = t.
Proof.
  unfold unpackTarget.
  destruct (getTargetPatterns engine t) as [pats|]; [|discriminate].
  cbv zeta.
  repeat match goal with
         | |- context [if ?b then _ else _] => destruct b
         end;
    intros H; injection H as <-; eauto.
Qed.

Lemma Subsequence_refl_nil {A} (l : list A) : Subsequence [] l.
Proof. induction l; constructor; assumption. Qed.

Lemma unpackTargets_from_subsequence w engine targets :
  forall ruleTargets ruleTargets',
    unpackTargets_from w engine ruleTargets targets = Ok ruleTargets' ->
    exists new, ruleTargets' = ruleTargets ++ new /\
                Subsequence (map target new) targets.
Proof.
  induction targets as [|t rest IH]; intros ruleTargets ruleTargets' H.
  - injection H as <-. exists []. split; [now rewrite app_nil_r|constructor].
  - cbn [unpackTargets_from] in H.
    destruct (unpackTarget w engine ruleTargets t) as [mid|x] eqn:Hstep;
      [|discriminate].
    cbn [bind] in H. destruct (IH mid ruleTargets' H) as [new [-> Hsub]].
    destruct (unpackTarget_adds w engine ruleTargets t mid Hstep)
      as [->|[rt [-> Ht]]].
    + exists new. split; [reflexivity|now constructor].
    + exists (rt :: new). rewrite <- app_assoc. split; [reflexivity|].
      cbn [map]. rewrite Ht. now constructor.
Qed.

Lemma Subsequence_length {A} (l1 l2 : list A) :
  Subsequence l1 l2 -> length l1 <= length l2.
Proof. induction 1; cbn; lia. Qed.

Lemma Subsequence_In {A} (l1 l2 : list A) :
  Subsequence l1 l2 -> forall x, In x l1 -> In x l2.
Proof.
  induction 1 as [|y l1 l2 _ IH|y l1 l2 _ IH]; intros x Hx.
  - destruct Hx.
  - right. now apply IH.
  - destruct Hx as [->|Hx]; [now left|right; now apply IH].
Qed.

(** X1.  Targets are resolved one by one and independently: the resolution
    of a list of targets in two parts is the resolution of the first part
    followed by that of the second, and it fails when one of them fails. *)
Theorem X1_unpackTargets_app w engine (before after : list string) :
  unpackTargets w engine (before ++ after) =
  let? first := unpackTargets w engine before in
  let? second := unpackTargets w engine after in
  Ok (first ++ second).
Proof.
  unfold unpackTargets at 1. rewrite unpackTargets_from_app.
  fold (unpackTargets w engine before).
  destruct (unpackTargets w engine before) as [first|x]; [|reflexivity].
  cbn [bind]. apply unpackTargets_from_acc.
Qed.

(** X2.  The RuleTargets returned stand for targets of the input, at most
    one for each target and in the order of the input: their [target]
    fields are the input with some targets left out. *)
Theorem X2_unpackTargets_keeps_order w engine targets ruleTargets :
  unpackTargets w engine targets = Ok ruleTargets ->
  Subsequence (map target ruleTargets) targets /\
  length ruleTargets <= length targets /\
  (forall rt, In rt ruleTargets -> In (target rt) targets).
Proof.
  intros H.
  destruct (unpackTargets_from_subsequence w engine targets [] ruleTargets H)
    as [new [-> Hsub]].
  cbn [app]. split; [exact Hsub|]. split.
  - rewrite <- (length_map target). now apply Subsequence_length.
  - intros rt Hrt. apply (Subsequence_In _ _ Hsub). now apply in_map.
Qed.

End UnpackTargetsStructure.

Section UnpackTargetsBranches.

Context {RuleResult EngineOptions : Type}.
Implicit Types (w : World) (engine : @RuleEngine RuleResult EngineOptions).
Implicit Types (ruleTargets : list RuleTarget) (t : string).

(** [picomatch] of an array accepts what one of its globs accepts. *)
Lemma picomatch_true w (globs : list string) (keep : string -> bool) str :
  picomatch w (filter keep globs) str = true <->
  exists g, In g globs /\ keep g = true /\ matchGlob w g str = true.
Proof.
  unfold picomatch. rewrite existsb_exists. split.
  - intros [g [Hin Hm]]. apply filter_In in Hin. exists g. tauto.
  - intros [g [Hin [Hk Hm]]]. exists g. split; [|exact Hm].
    apply filter_In. now split.
Qed.

(** X3.  For an engine whose globs compile, an existing plain file is kept,
    as one RuleTarget with its resolved path, exactly when one of the
    engine's patterns without '!' accepts the resolved path and one of its
    patterns with '!' accepts it too; one accepting '!' pattern is enough,
    whatever the other '!' patterns say.  Otherwise the file adds
    nothing. *)
Theorem X3_plain_file_kept_iff w engine ruleTargets t patterns :
  t <> "" ->
  hasMagic w t = false ->
  exists_ w t = true ->
  stats_isDirectory w t = false ->
  getTargetPatterns engine t = Some patterns ->
  Forall globCompiles patterns ->
  let accepted :=
    (exists g, In g patterns /\ startsWith "!" g = false /\
               matchGlob w g (resolve w t) = true) /\
    (exists g, In g patterns /\ startsWith "!" g = true /\
               matchGlob w g (resolve w t) = true) in
  (accepted ->
   unpackTarget w engine ruleTargets t =
   Ok (ruleTargets ++
       [{| target := t; isDirectory := None; paths := [resolve w t] |}])) /\
  (~ accepted -> unpackTarget w engine ruleTargets t = Ok ruleTargets).
Proof.
  intros _ Hm He Hd Hp _ accepted. unfold unpackTarget.
  rewrite Hp, Hm, He, Hd. cbv zeta.
  destruct (picomatch w (filter (fun p => negb (startsWith "!" p)) patterns)
                      (resolve w t)) eqn:Hi;
    destruct (picomatch w (filter (fun p => startsWith "!" p) patterns)
                        (resolve w t)) eqn:Hx; cbn [andb].
  - split; [reflexivity|]. intros Hn. exfalso. apply Hn. split.
    + apply picomatch_true in Hi. destruct Hi as [g [Hin [Hk Hg]]].
      exists g. apply negb_true_iff in Hk. auto.
    + apply picomatch_true in Hx. exact Hx.
  - split; [|reflexivity]. intros [_ Hex].
    apply (picomatch_true w patterns (fun p => startsWith "!" p)) in Hex.
    congruence.
  - split; [|reflexivity]. intros [[g [Hin [Hk Hg]]] _].
    assert (Hi' : picomatch w (filter (fun p => negb (startsWith "!" p)) patterns)
                            (resolve w t) = true).
    { apply picomatch_true. exists g. rewrite Hk. auto. }
    congruence.
  - split; [|reflexivity]. intros [_ Hex].
    apply (picomatch_true w patterns (fun p => startsWith "!" p)) in Hex.
    congruence.
Qed.


Lemma unpackTarget_resolvedFor w engine ruleTargets t ruleTargets' :
  Forall (resolvedFor w engine) ruleTargets ->
  unpackTarget w engine ruleTargets t = Ok ruleTargets' ->
  Forall (resolvedFor w engine) ruleTargets'.
Proof.
  intros Hinv. unfold unpackTarget.
  destruct (getTargetPatterns engine t) as [pats|] eqn:Hp; [|discriminate].
  cbv zeta.
  destruct (hasMagic w t) eqn:Hm.
  - cbn [paths].
    destruct (filter _ (map (resolve w) (globby w t))) as [|p ps] eqn:Hf;
      cbn [length Nat.ltb Nat.leb]; intros H; injection H as <-; [exact Hinv|].
    apply Forall_app; split; [exact Hinv|].
    constructor; [|constructor]. exists pats. cbn [target isDirectory paths].
    split; [exact Hp|]. right. split; [reflexivity|]. split; [discriminate|].
    intros q Hq. rewrite <- Hf in Hq. apply filter_In in Hq.
    destruct Hq as [_ Hq]. now apply andb_true_iff in Hq.
  - destruct (exists_ w t) eqn:He; [|intros H; injection H as <-; exact Hinv].
    destruct (stats_isDirectory w t) eqn:Hd.
    + unfold truthy. intros H; injection H as <-.
      apply Forall_app; split; [exact Hinv|].
      constructor; [|constructor]. exists pats. cbn [target isDirectory paths].
      split; [exact Hp|]. left. auto.
    + match goal with |- context [if ?b then _ else _] => destruct b eqn:Hb end;
        intros H; injection H as <-; [|exact Hinv].
      apply Forall_app; split; [exact Hinv|].
      constructor; [|constructor]. exists pats. cbn [target isDirectory paths].
      split; [exact Hp|]. right. split; [reflexivity|]. split; [discriminate|].
      intros q [<-|[]]. now apply andb_true_iff in Hb.
Qed.

(** X5.  Every RuleTarget that [unpackTargets] returns is of one of two
    kinds.  Marked as a directory, it stands for an existing directory
    named without glob characters and lists the resolved expansion of the
    engine's patterns in that directory; the matchers are not applied to
    it.  Unmarked, it lists at least one path, and each of its paths is
    accepted by the inclusive and by the exclusive matcher of the engine's
    patterns for that target.  [isDirectory] is never [false]. *)
Theorem X5_returned_targets_are_resolved w engine targets ruleTargets :
  unpackTargets w engine targets = Ok ruleTargets ->
  Forall (resolvedFor w engine) ruleTargets /\
  (forall rt, In rt ruleTargets -> isDirectory rt <> Some false).
Proof.
  intros H.
  assert (Hall : Forall (resolvedFor w engine) ruleTargets).
  { unfold unpackTargets in H.
    assert (Hgen : forall acc out, Forall (resolvedFor w engine) acc ->
              unpackTargets_from w engine acc targets = Ok out ->
              Forall (resolvedFor w engine) out).
    { clear H. induction targets as [|t rest IH]; intros acc out Hacc Hr.
      - injection Hr as <-. exact Hacc.
      - cbn [unpackTargets_from] in Hr.
        destruct (unpackTarget w engine acc t) as [acc'|x] eqn:Hstep;
          [|discriminate].
        cbn [bind] in Hr. apply (IH acc' out); [|exact Hr].
        exact (unpackTarget_resolvedFor w engine acc t acc' Hacc Hstep). }
    apply (Hgen [] ruleTargets); [constructor|exact H]. }
  split; [exact Hall|].
  intros rt Hrt. rewrite Forall_forall in Hall.
  destruct (Hall rt Hrt) as [pats [_ [[Hd _]|[Hd _]]]]; congruence.
Qed.

End UnpackTargetsBranches.

(** ** The run as a whole *)

Section RunStructure.

Context {RuleFilter RuleResult OUTPUT_FORMAT EngineOptions Report : Type}.
Variable recombine : list RuleResult -> OUTPUT_FORMAT -> Result Js.Value Report.

Implicit Types (w : World) (sched : nat -> nat).
Implicit Types (e : @RuleEngine RuleResult EngineOptions).
Implicit Types (engines : list (@RuleEngine RuleResult EngineOptions)).
Implicit Types (engineOptions : EngineOptions) (format : OUTPUT_FORMAT).
Implicit Types (catalog : @RuleCatalog RuleFilter).
Implicit Types (ps : list (Promise (list RuleResult))).

(** Target resolution fails for an engine exactly when the engine has no
    answer for one of the targets. *)
Lemma unpackTargets_fails_iff w e (targets : list string) :
  isOk (unpackTargets w e targets) = false <->
  exists t, In t targets /\ getTargetPatterns e t = None.
Proof.
  split.
  - destruct (unpackTargets w e targets) as [ts|x] eqn:H; [discriminate|].
    intros _.
    exact (proj2 (unpackTargets_from_Err w e targets [] (ex_intro _ x H))).
  - intros [t [Hin Hnone]]. unfold unpackTargets.
    now rewrite (unpackTargets_from_absent w e targets [] t Hin Hnone).
Qed.

Lemma unpackTargets_Err_assertion w e (targets : list string) x :
  unpackTargets w e targets = Err x -> x = AssertionError.
Proof.
  intros H.
  destruct (unpackTargets_from_Err w e targets [] (ex_intro _ x H)) as [He _].
  unfold unpackTargets in H. congruence.
Qed.

(** The loop stops with the assertion error at the first engine whose
    targets do not resolve. *)
Lemma dispatch_from_unresolved w sched catalog filters targets engineOptions es :
  (exists e, In e es /\ isOk (unpackTargets w e targets) = false) ->
  forall ps,
    dispatch_from w sched (getRuleGroupsMatchingFilters catalog filters)
                  (getRulesMatchingFilters catalog filters)
                  targets engineOptions ps es = Err AssertionError.
Proof.
  induction es as [|e0 rest IH]; intros [e [Hin Hbad]] ps; [destruct Hin|].
  cbn [dispatch_from].
  destruct (unpackTargets w e0 targets) as [ts|x] eqn:Hts.
  - rewrite (dispatchEngine_unfold w sched catalog filters targets
               engineOptions ps e0 ts Hts).
    destruct Hin as [Heq|Hin]; [subst e; rewrite Hts in Hbad; discriminate|].
    destruct (eligible (engineRulesOf catalog filters e0) ts); cbn [bind];
      apply IH; exists e; split; assumption.
  - unfold dispatchEngine. rewrite Hts. cbn [bind].
    now rewrite (unpackTargets_Err_assertion w e0 targets x Hts).
Qed.

Lemma dispatch_from_Err w sched catalog filters targets engineOptions es ps x :
  dispatch_from w sched (getRuleGroupsMatchingFilters catalog filters)
                (getRulesMatchingFilters catalog filters)
                targets engineOptions ps es = Err x ->
  x = AssertionError /\
  exists e, In e es /\ isOk (unpackTargets w e targets) = false.
Proof.
  revert ps. induction es as [|e0 rest IH]; intros ps H; [discriminate|].
  cbn [dispatch_from] in H.
  destruct (unpackTargets w e0 targets) as [ts|y] eqn:Hts.
  - rewrite (dispatchEngine_unfold w sched catalog filters targets
               engineOptions ps e0 ts Hts) in H.
    destruct (eligible (engineRulesOf catalog filters e0) ts); cbn [bind] in H;
      destruct (IH _ H) as [Hx [e [Hin Hbad]]];
      (split; [exact Hx|exists e; split; [now right|exact Hbad]]).
  - unfold dispatchEngine in H. rewrite Hts in H. cbn [bind] in H.
    injection H as <-. split.
    + exact (unpackTargets_Err_assertion w e0 targets y Hts).
    + exists e0. rewrite Hts. split; [now left|reflexivity].
Qed.

Lemma filter_none {A} (f : A -> bool) (l : list A) :
  (forall a, In a l -> f a = false) -> filter f l = [].
Proof.
  induction l as [|a l IH]; intros H; [reflexivity|].
  cbn. rewrite (H a (or_introl eq_refl)). apply IH. intros b Hb. apply H. now right.
Qed.

(** When no engine is eligible, recombination is called on the empty
    list. *)
Lemma run_no_engine_eligible
    w sched engines catalog filters (targets : list string) format engineOptions :
  (forall e, In e engines -> isOk (unpackTargets w e targets) = true) ->
  (forall e, In e engines -> isDispatched w catalog filters targets e = false) ->
  runRulesMatchingCriteria recombine w sched engines catalog filters targets
                           format engineOptions =
  rethrowAsSfdxError (recombine [] format).
Proof.
  intros Hok Hnone.
  rewrite (runRulesMatchingCriteria_fulfilled recombine w sched engines catalog
             filters targets format engineOptions Hok).
  - unfold resultsInRegistrationOrder. now rewrite (filter_none _ _ Hnone).
  - intros e He Hd. rewrite (Hnone e He) in Hd. discriminate.
Qed.

(** X7.  With no target, and with no engine, nothing is asked of any
    engine, not even its patterns: the call answers what recombination
    makes of the empty result list, also for engines that would answer no
    patterns. *)
Theorem X7_run_without_targets_or_engines
    w sched engines catalog filters (targets : list string) format engineOptions :
  runRulesMatchingCriteria recombine w sched engines catalog filters []
                           format engineOptions =
  rethrowAsSfdxError (recombine [] format) /\
  runRulesMatchingCriteria recombine w sched [] catalog filters targets
                           format engineOptions =
  rethrowAsSfdxError (recombine [] format).
Proof.
  split; [|reflexivity].
  apply run_no_engine_eligible.
  - reflexivity.
  - intros e _. unfold isDispatched, eligible, engineTargetsOf. cbn.
    apply andb_false_r.
Qed.


End RunStructure.

Section RunSchedule.

Context {RuleFilter RuleResult OUTPUT_FORMAT EngineOptions Report : Type}.
Variable recombine : list RuleResult -> OUTPUT_FORMAT -> Result Js.Value Report.

Implicit Types (w : World) (sched : nat -> nat).
Implicit Types (e : @RuleEngine RuleResult EngineOptions).
Implicit Types (engines : list (@RuleEngine RuleResult EngineOptions)).
Implicit Types (engineOptions : EngineOptions) (format : OUTPUT_FORMAT).
Implicit Types (catalog : @RuleCatalog RuleFilter).
Implicit Types (this : @DefaultRuleManager RuleFilter RuleResult EngineOptions).
Implicit Types (ps : list (Promise (list RuleResult))).

(** When some run rejects, the call fails from the catch clause. *)
Lemma run_rejected w sched engines catalog filters (targets : list string)
    format engineOptions ps :
  dispatch_from w sched (getRuleGroupsMatchingFilters catalog filters)
                (getRulesMatchingFilters catalog filters)
                targets engineOptions [] engines = Ok ps ->
  (exists p, In p ps /\ isOk (outcome p) = false) ->
  exists p reason,
    In p ps /\ outcome p = Err reason /\
    runRulesMatchingCriteria recombine w sched engines catalog filters targets
                             format engineOptions =
    rethrowAsSfdxError (Err reason).
Proof.
  intros Hd [p0 [Hp0 Hrej]].
  destruct (earliestRejection ps) as [[t reason]|] eqn:Hearly.
  - destruct (earliestRejection_Some ps t reason Hearly)
      as [[p [Hp [Hout Ht]]] Hmin].
    exists p, reason. split; [exact Hp|]. split; [exact Hout|].
    unfold runRulesMatchingCriteria. rewrite Hd. cbn [bind].
    unfold awaitAndRecombine, Promise_all. now rewrite Hearly.
  - pose proof (proj1 (earliestRejection_None ps) Hearly p0 Hp0) as Hfine.
    congruence.
Qed.

Lemma rethrowAsSfdxError_Err (reason : Js.Value) :
  (exists a, @rethrowAsSfdxError Report (Err reason) = Err (SfdxError a)) \/
  @rethrowAsSfdxError Report (Err reason) = Err TypeError.
Proof. cbn. destruct (Js.isNullish reason); eauto. Qed.

(** X9.  The order in which the runs settle decides nothing but what the
    catch clause makes of the first rejection: under two schedules the call
    answers the same report or fails with the same assertion error, or
    else it fails under both from the catch clause, with an [SfdxError] or
    with the [TypeError] of a reason that is [undefined] or [null]. *)
Theorem X9_schedule_changes_only_the_reason
    w sched sched' engines catalog filters (targets : list string)
    format engineOptions :
  runRulesMatchingCriteria recombine w sched engines catalog filters targets
                           format engineOptions =
  runRulesMatchingCriteria recombine w sched' engines catalog filters targets
                           format engineOptions \/
  (((exists a,
       runRulesMatchingCriteria recombine w sched engines catalog filters
                                targets format engineOptions =
       Err (SfdxError a)) \/
    runRulesMatchingCriteria recombine w sched engines catalog filters
                             targets format engineOptions = Err TypeError) /\
   ((exists a,
       runRulesMatchingCriteria recombine w sched' engines catalog filters
                                targets format engineOptions =
       Err (SfdxError a)) \/
    runRulesMatchingCriteria recombine w sched' engines catalog filters
                             targets format engineOptions = Err TypeError)).
Proof.
  destruct (dispatch_from w sched (getRuleGroupsMatchingFilters catalog filters)
              (getRulesMatchingFilters catalog filters) targets engineOptions
              [] engines) as [ps|x] eqn:Hd.
  - pose proof (dispatch_from_resolved w sched catalog filters targets
                  engineOptions engines [] ps Hd) as Hok.
    destruct (dispatch_from_outcomes w sched catalog filters targets
                engineOptions engines Hok []) as [new [Hd1 Hout]].
    cbn [app] in Hd1. rewrite Hd in Hd1. injection Hd1 as ->.
    destruct (dispatch_from_outcomes w sched' catalog filters targets
                engineOptions engines Hok []) as [new' [Hd' Hout']].
    cbn [app] in Hd'.
    destruct (earliestRejection new) as [[t reason]|] eqn:Hearly.
    + right.
      destruct (earliestRejection_Some new t reason Hearly)
        as [[p [Hp [Hpo _]]] _].
      assert (Hrej : exists p, In p new /\ isOk (outcome p) = false)
        by (exists p; rewrite Hpo; auto).
      destruct (run_rejected w sched engines catalog filters targets format
                  engineOptions new Hd Hrej) as [_ [r [_ [_ Hrun]]]].
      assert (Hrej' : exists p', In p' new' /\ isOk (outcome p') = false).
      { assert (Hmem : In (outcome p) (map outcome new')).
        { rewrite Hout', <- Hout. now apply in_map. }
        apply in_map_iff in Hmem. destruct Hmem as [p' [Hp'o Hp']].
        exists p'. rewrite Hp'o, Hpo. auto. }
      destruct (run_rejected w sched' engines catalog filters targets format
                  engineOptions new' Hd' Hrej') as [_ [r' [_ [_ Hrun']]]].
      rewrite Hrun, Hrun'. split; apply rethrowAsSfdxError_Err.
    + left.
      assert (Hruns : forall e, In e engines ->
                 isDispatched w catalog filters targets e = true ->
                 isOk (runOf w catalog filters targets engineOptions e) = true).
      { intros e He Hdis.
        assert (Hmem : In (runOf w catalog filters targets engineOptions e)
                          (map outcome new)).
        { rewrite Hout. apply in_map. apply filter_In. now split. }
        apply in_map_iff in Hmem. destruct Hmem as [q [<- Hq]].
        exact (proj1 (earliestRejection_None new) Hearly q Hq). }
      now rewrite !(runRulesMatchingCriteria_fulfilled recombine w _ engines
                      catalog filters targets format engineOptions Hok Hruns).
  - left.
    destruct (dispatch_from_Err w sched catalog filters targets engineOptions
                engines [] x Hd) as [-> Hbad].
    unfold runRulesMatchingCriteria. rewrite Hd.
    now rewrite (dispatch_from_unresolved w sched' catalog filters targets
                   engineOptions engines Hbad []).
Qed.

(** X11.  For the same filters, what an iteration of the dispatch loop
    hands to the run of an engine are the rules listed by
    [getRulesMatchingCriteria] that name this engine, in the order of the
    listing, and the groups of the catalog that name it. *)
Theorem X11_engine_rules_are_the_listed_rules
    this filters e w sched (targets : list string) engineOptions :
  exists groups rules,
    Subsequence rules (getRulesMatchingCriteria this filters) /\
    (forall r, In r rules <->
               In r (getRulesMatchingCriteria this filters) /\
               rule_engine r = getName e) /\
    (forall g, In g groups <->
               In g (getRuleGroupsMatchingFilters (catalog this) filters) /\
               group_engine g = getName e) /\
    forall ps ts,
      unpackTargets w e targets = Ok ts ->
      dispatchEngine w sched
                     (getRuleGroupsMatchingFilters (catalog this) filters)
                     (getRulesMatchingCriteria this filters)
                     targets engineOptions ps e =
      if eligible rules ts
      then Ok (ps ++ [{| settledAt := sched (length ps);
                         outcome := run e groups rules ts engineOptions |}])
      else Ok ps.
Proof.
  exists (engineGroupsOf (catalog this) filters e),
         (engineRulesOf (catalog this) filters e).
  unfold engineRulesOf, engineGroupsOf, getRulesMatchingCriteria.
  split; [|split; [|split]].
  - induction (getRulesMatchingFilters (catalog this) filters) as [|r l IH];
      [constructor|].
    cbn [filter]. destruct (rule_engine r =? getName e)%string; now constructor.
  - intros r. rewrite filter_In, String.eqb_eq. reflexivity.
  - intros g. rewrite filter_In, String.eqb_eq. reflexivity.
  - intros ps ts Hts.
    exact (dispatchEngine_unfold w sched (catalog this) filters targets
             engineOptions ps e ts Hts).
Qed.

(** X19.  A report is never partial: when the call answers a report, the
    run of every dispatched engine was fulfilled, and the report is what
    recombination answers for the result lists of all the dispatched
    engines, in registration order. *)
Theorem X19_a_report_is_never_partial
    w sched engines catalog filters (targets : list string)
    format engineOptions report :
  runRulesMatchingCriteria recombine w sched engines catalog filters targets
                           format engineOptions = Ok report ->
  (forall e, In e engines ->
             isDispatched w catalog filters targets e = true ->
             isOk (runOf w catalog filters targets engineOptions e) = true) /\
  recombine (resultsInRegistrationOrder w catalog filters targets
                                        engineOptions engines) format =
  Ok report.
Proof.
  intros Hrun.
  destruct (dispatch_from w sched (getRuleGroupsMatchingFilters catalog filters)
              (getRulesMatchingFilters catalog filters) targets engineOptions
              [] engines) as [ps|x] eqn:Hd;
    [|unfold runRulesMatchingCriteria in Hrun; rewrite Hd in Hrun; discriminate].
  pose proof (dispatch_from_resolved w sched catalog filters targets
                engineOptions engines [] ps Hd) as Hok.
  destruct (dispatch_from_outcomes w sched catalog filters targets
              engineOptions engines Hok []) as [new [Hd1 Hout]].
  cbn [app] in Hd1. rewrite Hd in Hd1. injection Hd1 as ->.
  destruct (earliestRejection new) as [[t reason]|] eqn:Hearly.
  - unfold runRulesMatchingCriteria in Hrun. rewrite Hd in Hrun.
    cbn [bind] in Hrun. unfold awaitAndRecombine, Promise_all in Hrun.
    rewrite Hearly in Hrun. cbn in Hrun.
    destruct (Js.isNullish reason); discriminate.
  - assert (Hruns : forall e, In e engines ->
               isDispatched w catalog filters targets e = true ->
               isOk (runOf w catalog filters targets engineOptions e) = true).
    { intros e He Hdis.
      assert (Hmem : In (runOf w catalog filters targets engineOptions e)
                        (map outcome new)).
      { rewrite Hout. apply in_map. apply filter_In. now split. }
      apply in_map_iff in Hmem. destruct Hmem as [q [<- Hq]].
      exact (proj1 (earliestRejection_None new) Hearly q Hq). }
    split; [exact Hruns|].
    rewrite (runRulesMatchingCriteria_fulfilled recombine w sched engines
               catalog filters targets format engineOptions Hok Hruns) in Hrun.
    destruct (recombine _ format) as [r|x]; cbn in Hrun;
      [now injection Hrun as ->|destruct (Js.isNullish x); discriminate].
Qed.

End RunSchedule.

(** ** Initialisation that fails *)

Section InitFailure.

Context {RuleFilter RuleResult EngineOptions : Type}.
Implicit Types (st : @State RuleFilter RuleResult EngineOptions).
Implicit Types (e : @RuleEngine RuleResult EngineOptions).
Implicit Types (es : list (@RuleEngine RuleResult EngineOptions)).

Lemma initEngines_all_ok es : forall log,
  (forall e, In e es -> isOk (engine_init e) = true) ->
  initEngines es log = (Ok tt, log ++ map (fun e => EngineInit (getName e)) es).
Proof.
  induction es as [|e rest IH]; intros log Hok; cbn.
  - now rewrite app_nil_r.
  - pose proof (Hok e (or_introl eq_refl)) as He.
    destruct (engine_init e) as [[]|v]; [|discriminate].
    rewrite IH, <- app_assoc; [reflexivity|]. intros e' He'. apply Hok. now right.
Qed.

Lemma initEngines_stops (before : list RuleEngine) e (after : list RuleEngine) v :
  forall log,
    (forall e', In e' before -> isOk (engine_init e') = true) ->
    engine_init e = Err v ->
    initEngines (before ++ e :: after) log =
    (Err (Rejection v),
     log ++ map (fun e' => EngineInit (getName e')) before ++
     [EngineInit (getName e)]).
Proof.
  induction before as [|b before IH]; intros log Hok Hv; cbn.
  - now rewrite Hv.
  - pose proof (Hok b (or_introl eq_refl)) as Hb.
    destruct (engine_init b) as [[]|x]; [|discriminate].
    rewrite IH, <- app_assoc; [reflexivity| |exact Hv].
    intros e' He'. apply Hok. now right.
Qed.

Lemma initEngines_result es : forall log r log',
  initEngines es log = (r, log') ->
  (r = Ok tt /\ forall e, In e es -> isOk (engine_init e) = true) \/
  (exists v, r = Err (Rejection v) /\
             exists e, In e es /\ engine_init e = Err v).
Proof.
  induction es as [|e rest IH]; intros log r log' H; cbn in H.
  - injection H as <- <-. left. split; [reflexivity|intros e []].
  - destruct (engine_init e) as [[]|v] eqn:He.
    + destruct (IH _ _ _ H) as [[-> Hall]|[v [-> [e' [Hin Hv]]]]].
      * left. split; [reflexivity|].
        intros e' [<-|Hin]; [now rewrite He|now apply Hall].
      * right. exists v. split; [reflexivity|]. exists e'.
        split; [now right|exact Hv].
    + injection H as <- <-. right. exists v. split; [reflexivity|].
      exists e. split; [now left|exact He].
Qed.

Lemma initEngines_extends es : forall log r log',
  initEngines es log = (r, log') -> exists calls, log' = log ++ calls.
Proof.
  induction es as [|e rest IH]; intros log r log' H; cbn in H.
  - injection H as <- <-. exists []. now rewrite app_nil_r.
  - destruct (engine_init e).
    + destruct (IH _ _ _ H) as [c ->]. rewrite <- app_assoc. eauto.
    + injection H as <- <-. eauto.
Qed.

Lemma init_initialized_after st :
  initialized (fst (snd (init st))) = isOk (fst (init st)).
Proof.
  destruct st as [this log]. unfold init.
  destruct (initialized this) eqn:Hi; [exact Hi|].
  cbn [engines catalog].
  destruct (initEngines (engines this) (log ++ [LoggerChild "DefaultManager"]))
    as [[[]|x] log2]; [|reflexivity].
  destruct (catalog_init (catalog this)) as [[]|v]; reflexivity.
Qed.

Lemma init_fields st :
  engines (fst (snd (init st))) = engines (fst st) /\
  catalog (fst (snd (init st))) = catalog (fst st).
Proof.
  destruct st as [this log]. unfold init.
  destruct (initialized this); [split; reflexivity|].
  cbn [engines catalog].
  destruct (initEngines (engines this) (log ++ [LoggerChild "DefaultManager"]))
    as [[[]|x] log2]; [|split; reflexivity].
  destruct (catalog_init (catalog this)) as [[]|v]; split; reflexivity.
Qed.

Lemma init_calls st :
  initialized (fst st) = false ->
  exists calls,
    snd (snd (init st)) = snd st ++ LoggerChild "DefaultManager" :: calls.
Proof.
  destruct st as [this log]. cbn [fst snd]. intros Hi. unfold init. rewrite Hi.
  cbn [engines catalog].
  destruct (initEngines (engines this) (log ++ [LoggerChild "DefaultManager"]))
    as [r log2] eqn:He.
  destruct (initEngines_extends _ _ _ _ He) as [c ->].
  destruct r as [[]|x];
    [destruct (catalog_init (catalog this)) as [[]|v]|];
    cbn [snd]; rewrite <- !app_assoc; cbn [app]; eauto.
Qed.

(** X12.  On a manager that is not initialised, [init] succeeds exactly
    when the [init] of every engine and of the catalog succeeds; and
    whatever the state, the manager is initialised after the call exactly
    when the call succeeded. *)
Theorem X12_init_succeeds_iff st :
  (initialized (fst st) = false ->
   (isOk (fst (init st)) = true <->
    (forall e, In e (engines (fst st)) -> isOk (engine_init e) = true) /\
    isOk (catalog_init (catalog (fst st))) = true)) /\
  initialized (fst (snd (init st))) = isOk (fst (init st)).
Proof.
  split; [|apply init_initialized_after].
  destruct st as [this log]. cbn [fst]. intros Hi. unfold init. rewrite Hi.
  cbn [engines catalog].
  destruct (initEngines (engines this) (log ++ [LoggerChild "DefaultManager"]))
    as [r log2] eqn:He.
  destruct (initEngines_result _ _ _ _ He) as [[-> Hall]|[v [-> [e [Hin Hv]]]]].
  - destruct (catalog_init (catalog this)) as [[]|v]; cbn; split; auto;
      try discriminate; intros [_ H]; exact H.
  - cbn. split; [discriminate|]. intros [Hall _].
    specialize (Hall e Hin). rewrite Hv in Hall. discriminate.
Qed.

(** X13.  [init] stops at the first engine whose [init] rejects: the
    engines after it and the catalog are not initialised, the reason is
    passed on as it is, and the manager stays uninitialised, with its
    logger and file handler already set. *)
Theorem X13_init_stops_at_failing_engine st (before : list RuleEngine) e
    (after : list RuleEngine) v :
  initialized (fst st) = false ->
  engines (fst st) = before ++ e :: after ->
  (forall e', In e' before -> isOk (engine_init e') = true) ->
  engine_init e = Err v ->
  init st =
  (Err (Rejection v),
   ({| engines := engines (fst st); catalog := catalog (fst st);
       logger := Some "DefaultManager"; fileHandler := true;
       initialized := false |},
    snd st ++ [LoggerChild "DefaultManager"] ++
    map (fun e' => EngineInit (getName e')) before ++ [EngineInit (getName e)])).
Proof.
  destruct st as [this log]. cbn [fst snd]. intros Hi Hes Hok Hv.
  unfold init. rewrite Hi. cbn [engines catalog logger fileHandler initialized].
  rewrite Hes.
  rewrite (initEngines_stops before e after v _ Hok Hv).
  rewrite ?Hi, <- !app_assoc. reflexivity.
Qed.

(** X14.  When every engine initialises and the [init] of the catalog
    rejects, every engine has been initialised, in order, before the
    catalog; the call fails with the reason of the catalog and the manager
    stays uninitialised. *)
Theorem X14_init_fails_with_the_catalog st v :
  initialized (fst st) = false ->
  (forall e, In e (engines (fst st)) -> isOk (engine_init e) = true) ->
  catalog_init (catalog (fst st)) = Err v ->
  init st =
  (Err (Rejection v),
   ({| engines := engines (fst st); catalog := catalog (fst st);
       logger := Some "DefaultManager"; fileHandler := true;
       initialized := false |},
    snd st ++ [LoggerChild "DefaultManager"] ++
    map (fun e => EngineInit (getName e)) (engines (fst st)) ++ [CatalogInit])).
Proof.
  destruct st as [this log]. cbn [fst snd]. intros Hi Hok Hv.
  unfold init. rewrite Hi. cbn [engines catalog logger fileHandler initialized].
  rewrite (initEngines_all_ok (engines this) _ Hok), Hv, ?Hi, <- !app_assoc.
  reflexivity.
Qed.

(** X15.  [init] never replaces the engines or the catalog and only adds to
    the record of calls; and a call that fails leaves a manager on which
    the next call starts over, beginning with the logger. *)
Theorem X15_init_frame_and_retry st :
  engines (fst (snd (init st))) = engines (fst st) /\
  catalog (fst (snd (init st))) = catalog (fst st) /\
  (exists calls, snd (snd (init st)) = snd st ++ calls) /\
  (isOk (fst (init st)) = false ->
   exists calls,
     snd (snd (init (snd (init st)))) =
     snd (snd (init st)) ++ LoggerChild "DefaultManager" :: calls).
Proof.
  destruct (init_fields st) as [He Hc].
  split; [exact He|]. split; [exact Hc|]. split.
  - destruct (initialized (fst st)) eqn:Hi.
    + rewrite (init_initialized st Hi). exists []. now rewrite app_nil_r.
    + destruct (init_calls st Hi) as [calls ->]. eauto.
  - intros Hfail. apply init_calls.
    now rewrite init_initialized_after.
Qed.

End InitFailure.

(** ** The messager: its instance and its lines *)

Section MessagerStructure.

Import SfdxMessager.
Local Open Scope string_scope.

Lemma getInstance_times_set (n : nat) (s : Statics) (r : nat) :
  INSTANCE s = Some r ->
  getInstance_times n s = (repeat r n, s).
Proof.
  intros H. induction n as [|n IH]; [reflexivity|].
  cbn [getInstance_times repeat]. unfold getInstance. now rewrite H, IH.
Qed.

(** X16.  [getInstance] hands out one object: however often it is called,
    every call returns the reference that the first call returned, at most
    one [SfdxMessager] is created, and none once the field is set. *)
Theorem X16_getInstance_is_a_singleton (n : nat) (s : Statics) :
  fst (getInstance_times (S n) s) = repeat (fst (getInstance s)) (S n) /\
  snd (getInstance_times (S n) s) = snd (getInstance s) /\
  INSTANCE (snd (getInstance s)) = Some (fst (getInstance s)) /\
  created (snd (getInstance s)) =
  (created s + match INSTANCE s with Some _ => 0 | None => 1 end)%nat.
Proof.
  assert (Hset : INSTANCE (snd (getInstance s)) = Some (fst (getInstance s)))
    by (unfold getInstance; destruct (INSTANCE s) eqn:H; cbn; auto).
  cbn [getInstance_times].
  destruct (getInstance s) as [r s'] eqn:Hg. cbn [fst snd] in *.
  rewrite (getInstance_times_set n s' r Hset). cbn [fst snd repeat].
  repeat split; [exact Hset|].
  unfold getInstance in Hg. destruct (INSTANCE s); injection Hg as <- <-; cbn; lia.
Qed.

Lemma lineBreaks_app (a b : string) :
  lineBreaks (a ++ b) = (lineBreaks a + lineBreaks b)%nat.
Proof.
  induction a as [|c a IH]; [reflexivity|].
  cbn. rewrite IH. lia.
Qed.

Lemma singleLine_lineBreaks (s : string) :
  singleLine s = true -> lineBreaks s = 0%nat.
Proof.
  induction s as [|c s IH]; [reflexivity|].
  cbn. destruct (isLineTerminator c); cbn; [discriminate|exact IH].
Qed.

(** X17.  Every call of [uxWarn], with or without the flag, adds exactly
    one line break to the error stream, at its very end, whatever the
    arguments hold, line breaks included. *)
Theorem X17_uxWarn_adds_one_line_break
    (EventKey : Type) (name : EventKey -> string)
    (now : Z) (err : string) (k : option EventKey)
    (a : option (list (option string))) (v : bool) :
  lineBreaks (uxWarn EventKey name now err k a v) = S (lineBreaks err) /\
  lineBreaks (uxWarn_default EventKey name now err k a) = S (lineBreaks err) /\
  exists line,
    uxWarn EventKey name now err k a v = err ++ line ++ lineSeparator /\
    lineBreaks line = 0%nat.
Proof.
  assert (Hline : forall v',
    lineBreaks (formatMessage EventKey name now k a WARNING UX v') = 0%nat).
  { intros v'. apply singleLine_lineBreaks. unfold formatMessage, START, END_.
    change ("SFDX-START" ++ toJson EventKey name ?m ++ "SFDX-END")
      with ("SFDX-START" ++ (toJson EventKey name m ++ "SFDX-END")).
    rewrite !singleLine_app, toJson_singleLine. reflexivity. }
  assert (Hsep : lineBreaks lineSeparator = 1%nat) by reflexivity.
  split; [|split].
  - unfold uxWarn, println. rewrite !lineBreaks_app, Hline, Hsep. lia.
  - unfold uxWarn_default, uxWarn, println.
    rewrite !lineBreaks_app, Hline, Hsep. lia.
  - exists (formatMessage EventKey name now k a WARNING UX v).
    split; [reflexivity|apply Hline].
Qed.

Lemma allChars_app (f : ascii -> bool) (a b : string) :
  allChars f (a ++ b) = allChars f a && allChars f b.
Proof.
  induction a as [|c a IH]; [reflexivity|].
  cbn. now rewrite IH, andb_assoc.
Qed.

Local Abbreviation clean := (allChars (fun c => negb (neverWritten c))).

Lemma replacement_clean (c : ascii) : clean (Gson.replacement c) = true.
Proof.
  destruct c as [[] [] [] [] [] [] [] []]; vm_compute; reflexivity.
Qed.

Lemma escape_clean (s : string) : clean (Gson.escape s) = true.
Proof.
  induction s as [|c s IH]; [reflexivity|].
  cbn [Gson.escape]. now rewrite allChars_app, replacement_clean, IH.
Qed.

Lemma string__clean (s : string) : clean (Gson.string_ s) = true.
Proof.
  unfold Gson.string_. cbn [allChars].
  rewrite allChars_app, escape_clean. reflexivity.
Qed.

Lemma string_of_uint_clean (d : Decimal.uint) :
  clean (NilEmpty.string_of_uint d) = true.
Proof. induction d; cbn [NilEmpty.string_of_uint allChars]; auto. Qed.

Lemma long_clean (z : Z) : clean (Gson.long z) = true.
Proof.
  unfold Gson.long, NilZero.string_of_int, NilZero.string_of_uint.
  destruct (Z.to_int z) as [d|d]; destruct d;
    solve [reflexivity
          | cbn [allChars]; rewrite ?string_of_uint_clean; reflexivity].
Qed.

Lemma concat_clean (sep : string) (l : list string) :
  clean sep = true ->
  Forall (fun s => clean s = true) l ->
  clean (String.concat sep l) = true.
Proof.
  intros Hsep. induction 1 as [|s l Hs Hl IH]; [reflexivity|].
  cbn [String.concat]. destruct l as [|s' l']; [exact Hs|].
  rewrite !allChars_app, Hs, Hsep. exact IH.
Qed.

Lemma field_clean (name : string) (value : option string) :
  (forall v, value = Some v -> clean v = true) ->
  Forall (fun s => clean s = true) (Gson.field name value).
Proof.
  intros H. destruct value as [v|]; unfold Gson.field; constructor; [|constructor].
  rewrite !allChars_app, string__clean, (H v eq_refl). reflexivity.
Qed.

Lemma toJson_clean (EventKey : Type) (name : EventKey -> string)
    (m : SfdxMessage EventKey) :
  clean (toJson EventKey name m) = true.
Proof.
  unfold toJson, Gson.object. rewrite !allChars_app.
  rewrite concat_clean; [reflexivity|reflexivity|].
  repeat (apply Forall_app; split); apply field_clean.
  - intros v Hv. destruct (key EventKey m); [|discriminate].
    injection Hv as <-. apply string__clean.
  - intros v Hv. destruct (args EventKey m) as [l|]; [|discriminate].
    injection Hv as <-. unfold Gson.array. rewrite !allChars_app.
    rewrite concat_clean; [reflexivity|reflexivity|].
    apply Forall_forall. intros s Hs. apply in_map_iff in Hs.
    destruct Hs as [[o|] [<- _]]; [apply string__clean|reflexivity].
  - intros v Hv. injection Hv as <-. apply string__clean.
  - intros v Hv. injection Hv as <-. apply string__clean.
  - intros v Hv. injection Hv as <-. now destruct (verbose EventKey m).
  - intros v Hv. injection Hv as <-. apply long_clean.
Qed.


End MessagerStructure.

(** ** The further properties on the small installation *)

Section FurtherOnTheInstallation.

Import Installation.

Lemma X2_on_installation :
  Subsequence ["src/Foo.cls"; "src/*.cls"; "src"]
              ["src/Foo.cls"; "src/*.cls"; "src"; "nonexistent/path"] /\
  3 <= 4 /\
  (forall rt,
      In rt [{| target := "src/Foo.cls"; isDirectory := None;
                paths := ["/w/src/Foo.cls"] |};
             {| target := "src/*.cls"; isDirectory := None;
                paths := ["/w/src/Foo.cls"] |};
             {| target := "src"; isDirectory := Some true;
                paths := ["/w/src/Foo.cls"] |}] ->
      In (target rt) ["src/Foo.cls"; "src/*.cls"; "src"; "nonexistent/path"]).
Proof.
  exact (X2_unpackTargets_keeps_order posix pmdExcluding
           ["src/Foo.cls"; "src/*.cls"; "src"; "nonexistent/path"]
           [{| target := "src/Foo.cls"; isDirectory := None;
               paths := ["/w/src/Foo.cls"] |};
            {| target := "src/*.cls"; isDirectory := None;
               paths := ["/w/src/Foo.cls"] |};
            {| target := "src"; isDirectory := Some true;
               paths := ["/w/src/Foo.cls"] |}] eq_refl).
Defined.

Lemma X3_on_installation :
  unpackTarget posix pmdExcluding [] "src/Foo.cls" =
  Ok [{| target := "src/Foo.cls"; isDirectory := None;
         paths := ["/w/src/Foo.cls"] |}].
Proof.
  refine (proj1 (X3_plain_file_kept_iff posix pmdExcluding [] "src/Foo.cls"
                   ["**/*.cls"; "!**/Ignored.cls"]
                   _ eq_refl eq_refl eq_refl eq_refl _) _).
  - discriminate.
  - repeat constructor; try discriminate; cbn; lia.
  - split.
    + exists "**/*.cls". repeat split. now left.
    + exists "!**/Ignored.cls". repeat split. right. now left.
Defined.


Lemma X5_on_installation :
  Forall (resolvedFor posix pmdExcluding)
         [{| target := "src/Foo.cls"; isDirectory := None;
             paths := ["/w/src/Foo.cls"] |};
          {| target := "src"; isDirectory := Some true;
             paths := ["/w/src/Foo.cls"] |};
          {| target := "empty"; isDirectory := Some true; paths := [] |}] /\
  (forall rt,
      In rt [{| target := "src/Foo.cls"; isDirectory := None;
                paths := ["/w/src/Foo.cls"] |};
             {| target := "src"; isDirectory := Some true;
                paths := ["/w/src/Foo.cls"] |};
             {| target := "empty"; isDirectory := Some true; paths := [] |}] ->
      isDirectory rt <> Some false).
Proof.
  exact (X5_returned_targets_are_resolved posix pmdExcluding
           ["src/Foo.cls"; "src"; "empty"] _ eq_refl).
Defined.


Lemma X19_on_installation :
  (forall e, In e [pmdExcluding; eslint] ->
             isDispatched posix rulesOfBoth [tt] ["src"] e = true ->
             isOk (runOf posix rulesOfBoth [tt] ["src"] [] e) = true) /\
  recombine (resultsInRegistrationOrder posix rulesOfBoth [tt] ["src"] []
                                        [pmdExcluding; eslint]) tt =
  Ok ["pmd: Foo.cls line 1"; "pmd: Foo.cls line 7"; "eslint: bar.js line 2"].
Proof.
  exact (X19_a_report_is_never_partial recombine posix inOrder
           [pmdExcluding; eslint] rulesOfBoth [tt] ["src"] tt [] _ eq_refl).
Defined.

Lemma X13_on_installation :
  init (construct [pmd; uninstalled; eslint] rulesOfBoth, []) =
  (Err (Rejection (Js.ErrorObject "java not found")),
   ({| engines := [pmd; uninstalled; eslint]; catalog := rulesOfBoth;
       logger := Some "DefaultManager"; fileHandler := true;
       initialized := false |},
    [LoggerChild "DefaultManager"; EngineInit "pmd"; EngineInit "pmd"])).
Proof.
  refine (X13_init_stops_at_failing_engine
            (construct [pmd; uninstalled; eslint] rulesOfBoth, [])
            [pmd] uninstalled [eslint] (Js.ErrorObject "java not found")
            eq_refl eq_refl _ eq_refl).
  intros e [<-|[]]. reflexivity.
Defined.

Lemma X14_on_installation :
  init (construct [pmd; eslint] unreadable, []) =
  (Err (Rejection (Js.ErrorObject "catalog file is not valid JSON")),
   ({| engines := [pmd; eslint]; catalog := unreadable;
       logger := Some "DefaultManager"; fileHandler := true;
       initialized := false |},
    [LoggerChild "DefaultManager"; EngineInit "pmd"; EngineInit "eslint";
     CatalogInit])).
Proof.
  refine (X14_init_fails_with_the_catalog
            (construct [pmd; eslint] unreadable, [])
            (Js.ErrorObject "catalog file is not valid JSON") eq_refl _ eq_refl).
  intros e [<-|[<-|[]]]; reflexivity.
Defined.

End FurtherOnTheInstallation.
